(** * RapidEdit (app.py): mask compositing and the stage workflow

    A shallow embedding of [src/app.py].  The two model-backed calls
    (segment-anything and the diffusers inpainting pipeline), the decoding
    of image files and the Streamlit widgets are taken as parameters; the
    code around them (area filter, mask stitching, query parameters,
    session state and the stage dispatch of [main]) is embedded as
    written. *)

From Stdlib Require Import ZArith Lia Ascii String List Permutation Bool.
From Stdlib Require Import DecimalString DecimalNat.
From stdpp Require Import base list strings gmap.

(** ** Python exceptions and results *)

Inductive exn : Type :=
| ValueError
| IndexError
| TypeError
| AttributeError (name : string)
| NameError (name : string)
| FileNotFoundError (path : string)
| CollaboratorError (detail : string)
| RerunException.

Inductive result (A : Type) : Type :=
| Ok (a : A)
| Raise (e : exn).
Arguments Ok {A} a.
Arguments Raise {A} e.

Definition rbind {A B} (r : result A) (k : A -> result B) : result B :=
  match r with
  | Ok a => k a
  | Raise e => Raise e
  end.

Definition rmap {A B} (f : A -> B) (r : result A) : result B :=
  rbind r (fun a => Ok (f a)).

Declare Scope result_scope.
Delimit Scope result_scope with result.
Notation "'let*' x ':=' r 'in' k" := (rbind r (fun x => k))
  (at level 10, x pattern, r at level 100, k at level 200) : result_scope.
#[local] Open Scope result_scope.

(** A list comprehension whose element expression may raise: elements are
    evaluated left to right and the first exception aborts the whole. *)
Fixpoint traverse {A B} (f : A -> result B) (l : list A) : result (list B) :=
  match l with
  | [] => Ok []
  | x :: l' =>
      let* y := f x in
      let* ys := traverse f l' in
      Ok (y :: ys)
  end.

(** A [for] loop updating one variable, whose body may raise. *)
Fixpoint for_each {A S} (body : S -> A -> result S) (s : S) (l : list A)
  : result S :=
  match l with
  | [] => Ok s
  | x :: l' => let* s' := body s x in for_each body s' l'
  end.

(** ** Python built-ins used by the compositor *)

Module Py.

(** [str.isspace] on the ASCII range: TAB..CR, FS..US and the space. *)
Definition is_space (c : ascii) : bool :=
  let n := nat_of_ascii c in
  ((9 <=? n)%nat && (n <=? 13)%nat) || ((28 <=? n)%nat && (n <=? 32)%nat).

Fixpoint lstrip (s : list ascii) : list ascii :=
  match s with
  | c :: s' => if is_space c then lstrip s' else s
  | [] => []
  end.

(** [s.strip()] *)
Definition strip (s : list ascii) : list ascii :=
  rev (lstrip (rev (lstrip s))).

Definition digit_of (c : ascii) : option Z :=
  let n := nat_of_ascii c in
  if ((48 <=? n)%nat && (n <=? 57)%nat)%bool
  then Some (Z.of_nat (n - 48))
  else None.

(** Decimal digits, single underscores allowed between two digits
    (PEP 515).  [prev] tells whether the previous character was a digit. *)
Fixpoint digits (acc : Z) (prev : bool) (s : list ascii) : option Z :=
  match s with
  | [] => if prev then Some acc else None
  | c :: s' =>
      match digit_of c with
      | Some d => digits (10 * acc + d) true s'
      | None =>
          if (Ascii.eqb c "_" && prev)%bool then digits acc false s'
          else None
      end
  end.

(** [int(s)] for a [str] argument in base 10, on ASCII input: [int]
    drops surrounding white space itself, then reads an optional sign and
    the digits. *)
Definition int (s : list ascii) : result Z :=
  let body :=
    match strip s with
    | "-"%char :: ds => Z.opp <$> digits 0 false ds
    | "+"%char :: ds => digits 0 false ds
    | ds => digits 0 false ds
    end in
  match body with
  | Some z => Ok z
  | None => Raise ValueError
  end.

(** [l[i]]: negative indices count from the end; outside [-len, len)
    the access raises [IndexError]. *)
Definition index {A} (l : list A) (i : Z) : result A :=
  let n := Z.of_nat (length l) in
  let j := if (i <? 0)%Z then (i + n)%Z else i in
  if ((0 <=? j)%Z && (j <? n)%Z)%bool then
    match l !! Z.to_nat j with
    | Some x => Ok x
    | None => Raise IndexError
    end
  else Raise IndexError.

End Py.

(** ** The NumPy operations used by the compositor, on 2-D arrays *)

Module Np.

(** A 2-D array, row major. *)
Definition shape {A} (a : list (list A)) : nat * nat :=
  (length a, length (default [] (head a))).

Definition has_shape {A} (h w : nat) (a : list (list A)) : Prop :=
  length a = h /\ Forall (fun row => length row = w) a.

(** [np.zeros_like(image_np[..., 0], dtype=np.uint8)] for an image of
    [h] rows and [w] columns. *)
Definition zeros (h w : nat) : list (list Z) :=
  replicate h (replicate w 0%Z).

(** [a[i, j]], with [d] where the position does not exist. *)
Definition at2 {A} (d : A) (a : list (list A)) (i j : nat) : A :=
  match a !! i with
  | Some row => default d (row !! j)
  | None => d
  end.

(** The array of [h] rows and [w] columns whose element at [(i, j)] is
    [f i j]. *)
Definition tabulate {A} (h w : nat) (f : nat -> nat -> A)
  : list (list A) :=
  (fun i => f i <$> seq 0 w) <$> seq 0 h.

(** Broadcasting of one axis: equal lengths, or one of them is 1. *)
Definition broadcast_dim (n m : nat) : option nat :=
  if decide (n = m) then Some n
  else if decide (n = 1) then Some m
  else if decide (m = 1) then Some n
  else None.

(** Index into an axis of length [n] under broadcasting. *)
Definition bidx (n i : nat) : nat := if decide (n = 1) then 0 else i.

(** [np.logical_or(a, b)] with [a] of dtype uint8 and [b] of dtype bool:
    an element is true when it is non-zero; shapes that do not broadcast
    raise [ValueError]. *)
Definition logical_or (a : list (list Z)) (b : list (list bool))
  : result (list (list bool)) :=
  let '(ha, wa) := shape a in
  let '(hb, wb) := shape b in
  match broadcast_dim ha hb, broadcast_dim wa wb with
  | Some h, Some w =>
      Ok (tabulate h w (fun i j =>
            negb (at2 0%Z a (bidx ha i) (bidx wa j) =? 0)%Z
            || at2 false b (bidx hb i) (bidx wb j)))
  | _, _ => Raise ValueError
  end.

(** [a.astype(np.uint8)] on a bool array. *)
Definition astype_uint8 (a : list (list bool)) : list (list Z) :=
  (fun row : list bool =>
     (fun b : bool => if b then 1%Z else 0%Z) <$> row) <$> a.

(** [a * k] on a uint8 array and a Python int: the result stays uint8
    and wraps around modulo 256. *)
Definition mul_uint8 (a : list (list Z)) (k : Z) : list (list Z) :=
  (fun row : list Z => (fun v => (v * k) mod 256)%Z <$> row) <$> a.

End Np.

(** ** Candidate masks and the Mask Compositor *)

(** One record of [SamAutomaticMaskGenerator.generate]: the code reads the
    keys ["segmentation"] and ["area"] only. *)
Record CandidateMask : Type := mkMask {
  segmentation : list (list bool);
  area : Z
}.

(** [stitch_dummy_masks], after [Image.open(image_path)] has given an image
    of [h] rows and [w] columns.  The Python function returns nothing: the
    value modelled is the array handed to [Image.fromarray] and saved at
    uploads/stitched_mask.png. *)
Definition stitch_dummy_masks (h w : nat) (filtered_masks : list CandidateMask)
    (selected_indices : list string) : result (list (list Z)) :=
  let* selected_indices :=
    traverse (fun idx =>
                rmap (fun i => i - 1)%Z
                     (Py.int (Py.strip (list_ascii_of_string idx))))
             selected_indices in
  let combined_mask := Np.zeros h w in
  let* combined_mask :=
    for_each (fun combined_mask idx =>
                let* m := Py.index filtered_masks idx in
                rmap Np.astype_uint8
                     (Np.logical_or combined_mask (segmentation m)))
             combined_mask selected_indices in
  Ok (Np.mul_uint8 combined_mask 255).

(** ** What the compositor is to compute

    The reading of a selection as 1-based indices into the [n] candidate
    masks, and the pixel-wise OR of a family of masks; the code above is
    compared with these. *)

(** The 0-based position denoted by one selection string, when it is an
    integer between 1 and [n]. *)
Definition valid_index (n : nat) (s : string) : option nat :=
  match Py.int (Py.strip (list_ascii_of_string s)) with
  | Ok i =>
      if ((1 <=? i)%Z && (i <=? Z.of_nat n)%Z)%bool
      then Some (Z.to_nat (i - 1))
      else None
  | Raise _ => None
  end.

Definition valid_selection (n : nat) (sel : list string) : bool :=
  forallb (fun s => bool_decide (is_Some (valid_index n s))) sel.

(** The positions of a selection, invalid entries left out. *)
Definition indices (n : nat) (sel : list string) : list nat :=
  omap (valid_index n) sel.

(** The masks at the given positions. *)
Definition masks_at (filtered_masks : list CandidateMask) (ks : list nat)
  : list (list (list bool)) :=
  omap (fun k => segmentation <$> filtered_masks !! k) ks.

(** Pixel-wise logical OR of a family of boolean masks over an [h] by [w]
    grid; the OR of no mask is false everywhere. *)
Definition pixelwise_or (h w : nat) (ms : list (list (list bool)))
  : list (list bool) :=
  Np.tabulate h w (fun r c => existsb (fun m => Np.at2 false m r c) ms).

(** A boolean mask as a binary image: 255 where true, 0 where false. *)
Definition binary_image (a : list (list bool)) : list (list Z) :=
  (fun row : list bool =>
     (fun b : bool => if b then 255%Z else 0%Z) <$> row) <$> a.

(** Every candidate mask covers the pixel grid of the [h] by [w] image. *)
Definition masks_shaped (h w : nat) (filtered_masks : list CandidateMask)
  : bool :=
  forallb (fun m =>
             bool_decide (length (segmentation m) = h)
             && forallb (fun row : list bool => bool_decide (length row = w))
                        (segmentation m))
          filtered_masks.

(** ** Paths *)

Definition UPLOAD_FOLDER : string := "uploads".

Definition starts_with_sep (p : string) : bool :=
  match p with
  | String c _ => Ascii.eqb c "/"
  | EmptyString => false
  end.

Fixpoint ends_with_sep (p : string) : bool :=
  match p with
  | EmptyString => false
  | String c EmptyString => Ascii.eqb c "/"
  | String _ p' => ends_with_sep p'
  end.

(** [os.path.join(a, b)] (posixpath): an absolute [b] replaces [a]. *)
Definition path_join (a b : string) : string :=
  if starts_with_sep b then b
  else if (String.eqb a "" || ends_with_sep a)%bool then (a ++ b)%string
  else (a ++ "/" ++ b)%string.

Fixpoint after_last_sep (cur p : string) : string :=
  match p with
  | EmptyString => cur
  | String c p' =>
      if Ascii.eqb c "/" then after_last_sep p' p' else after_last_sep cur p'
  end.

(** [os.path.basename(p)]: what follows the last slash. *)
Definition basename (p : string) : string := after_last_sep p p.

(** [f"{id}"] for a non-negative [int]. *)
Definition str_of_nat (n : nat) : string :=
  NilZero.string_of_uint (Nat.to_uint n).

(** ** Session state, query parameters and the page *)

(** [st.session_state].  An attribute that has not been assigned is
    absent (outer [None]: reading it raises [AttributeError]); the inner
    option of a field is Python's [None]. *)
Record SessionState : Type := mkSession {
  image_path : option (option string);
  prompt : option (option string);
  mask_overlay_path : option (option string);
  masks : option (option (list CandidateMask));
  stitched_mask_path : option (option string);
  selected_masks : option (list string);
  output_image_path : option (option string);
  stage : option string;
  negative_prompt : option string;
  result_path : option string
}.

(** The state of a new session: no attribute assigned yet. *)
Definition empty_session : SessionState :=
  mkSession None None None None None None None None None None.

Definition set_image_path v (s : SessionState) : SessionState :=
  mkSession (Some v) (prompt s) (mask_overlay_path s) (masks s)
    (stitched_mask_path s) (selected_masks s) (output_image_path s)
    (stage s) (negative_prompt s) (result_path s).
Definition set_prompt v (s : SessionState) : SessionState :=
  mkSession (image_path s) (Some v) (mask_overlay_path s) (masks s)
    (stitched_mask_path s) (selected_masks s) (output_image_path s)
    (stage s) (negative_prompt s) (result_path s).
Definition set_mask_overlay_path v (s : SessionState) : SessionState :=
  mkSession (image_path s) (prompt s) (Some v) (masks s)
    (stitched_mask_path s) (selected_masks s) (output_image_path s)
    (stage s) (negative_prompt s) (result_path s).
Definition set_masks v (s : SessionState) : SessionState :=
  mkSession (image_path s) (prompt s) (mask_overlay_path s) (Some v)
    (stitched_mask_path s) (selected_masks s) (output_image_path s)
    (stage s) (negative_prompt s) (result_path s).
Definition set_stitched_mask_path v (s : SessionState) : SessionState :=
  mkSession (image_path s) (prompt s) (mask_overlay_path s) (masks s)
    (Some v) (selected_masks s) (output_image_path s)
    (stage s) (negative_prompt s) (result_path s).
Definition set_selected_masks v (s : SessionState) : SessionState :=
  mkSession (image_path s) (prompt s) (mask_overlay_path s) (masks s)
    (stitched_mask_path s) (Some v) (output_image_path s)
    (stage s) (negative_prompt s) (result_path s).
Definition set_output_image_path v (s : SessionState) : SessionState :=
  mkSession (image_path s) (prompt s) (mask_overlay_path s) (masks s)
    (stitched_mask_path s) (selected_masks s) (Some v)
    (stage s) (negative_prompt s) (result_path s).
Definition set_stage v (s : SessionState) : SessionState :=
  mkSession (image_path s) (prompt s) (mask_overlay_path s) (masks s)
    (stitched_mask_path s) (selected_masks s) (output_image_path s)
    (Some v) (negative_prompt s) (result_path s).
Definition set_negative_prompt v (s : SessionState) : SessionState :=
  mkSession (image_path s) (prompt s) (mask_overlay_path s) (masks s)
    (stitched_mask_path s) (selected_masks s) (output_image_path s)
    (stage s) (Some v) (result_path s).
Definition set_result_path v (s : SessionState) : SessionState :=
  mkSession (image_path s) (prompt s) (mask_overlay_path s) (masks s)
    (stitched_mask_path s) (selected_masks s) (output_image_path s)
    (stage s) (negative_prompt s) (Some v).

(** What one run of the script puts on the page. *)
Inductive element : Type :=
| Title (text : string)
| Header (text : string)
| Picture (path : option string) (caption : string)
| Markdown (text : string).

(** The state a run reads and writes: the URL query parameters, the
    session state, the image last saved at uploads/stitched_mask.png and
    the page rendered so far. *)
Record World : Type := mkWorld {
  query_params : gmap string string;
  session_state : SessionState;
  stitched_mask_png : option (list (list Z));
  page : list element
}.

(** The widget values of one run: what the user has entered, and the
    button clicked to trigger the run, if any. *)
Record Widgets : Type := mkWidgets {
  uploaded_file : option string;
  enter_prompt : string;
  enter_negative_prompt : string;
  chosen_masks : list string;
  update_prompt : option string;
  update_negative_prompt : option string;
  clicked : option string
}.

(** The collaborators of the script, each with the exception it may
    raise: the segmentation model on the image at a path, the drawing and
    saving of the overlay, the decoding of an image (its rows and columns),
    the inpainting pipeline up to the saving of its output, and the
    file and image calls of Streamlit and PIL made by the pages. *)
Record Env : Type := mkEnv {
  sam_generate : option string -> result (list CandidateMask);
  draw_overlay : option string -> list CandidateMask -> result unit;
  image_shape : option string -> result (nat * nat);
  pipe_run : option string -> option string -> string -> string -> result unit;
  show_image : option string -> result unit;
  save_upload : string -> result unit;
  resave_result : string -> result unit
}.

(** ** The script monad: state of the run, and exceptions *)

Definition M (A : Type) : Type := World -> result A * World.

#[export] Instance M_ret : MRet M := fun A (a : A) w => (Ok a, w).
#[export] Instance M_bind : MBind M := fun A B (k : A -> M B) (m : M A) w =>
  match m w with
  | (Ok a, w') => k a w'
  | (Raise e, w') => (Raise e, w')
  end.

Definition raise {A} (e : exn) : M A := fun w => (Raise e, w).

Definition lift {A} (r : result A) : M A := fun w => (r, w).

Definition render (e : element) : M unit := fun w =>
  (Ok tt, mkWorld (query_params w) (session_state w) (stitched_mask_png w)
            (page w ++ [e])).

Definition get_session : M SessionState := fun w => (Ok (session_state w), w).

(** [st.session_state.name] *)
Definition attr {A} (name : string) (proj : SessionState -> option A) : M A :=
  fun w =>
    match proj (session_state w) with
    | Some v => (Ok v, w)
    | None => (Raise (AttributeError name), w)
    end.

(** [st.session_state.name = v], with [upd] the update of that field. *)
Definition assign (upd : SessionState -> SessionState) : M unit := fun w =>
  (Ok tt, mkWorld (query_params w) (upd (session_state w))
            (stitched_mask_png w) (page w)).

Definition modify_query (f : gmap string string -> gmap string string)
  : M unit := fun w =>
  (Ok tt, mkWorld (f (query_params w)) (session_state w)
            (stitched_mask_png w) (page w)).

(** [st.query_params.get(key, None)] *)
Definition query_get (key : string) : M (option string) := fun w =>
  (Ok (query_params w !! key), w).

Definition save_stitched_mask (img : list (list Z)) : M unit := fun w =>
  (Ok tt, mkWorld (query_params w) (session_state w) (Some img) (page w)).

(** [st.rerun()] ends the run by raising Streamlit's rerun exception. *)
Definition st_rerun : M unit := raise RerunException.

(** [st.image(path, caption=...)] *)
Definition st_image (env : Env) (path : option string) (caption : string)
  : M unit :=
  lift (show_image env path);; render (Picture path caption).

(** [st.button(label)]: true in the run triggered by that button. *)
Definition st_button (ui : Widgets) (label : string) : bool :=
  bool_decide (clicked ui = Some label).

(** [st.text_input(label, value=v)]: the text entered, [v] if none was. *)
Definition st_text_input (entered : option string) (value : string) : string :=
  default value entered.

(** [st.multiselect(label, options)]: the chosen options, each once. *)
Definition st_multiselect (options chosen : list string) : list string :=
  remove_dups (filter (fun s => s ∈ options) chosen).

(** [x or ""] for [x] that is [None] or a [str]. *)
Definition or_empty (x : option string) : string := default "" x.

(** [str(x)] inside an f-string, for [x] that is [None] or a [str]. *)
Definition str_of (x : option string) : string := default "None" x.

(** ** The functions of app.py *)

(** [generate_dummy_masks]: the raw proposals of the segmentation model
    are filtered by area; the overlay is drawn from the masks kept. *)
Definition generate_dummy_masks (env : Env) (image_path : option string)
  : result (list CandidateMask * string) :=
  let* sam_masks := sam_generate env image_path in
  let filtered_masks := filter (fun m => (area m > 500)%Z) sam_masks in
  let* _ := draw_overlay env image_path filtered_masks in
  let mask_overlay_path := path_join UPLOAD_FOLDER "mask_overlay.png" in
  Ok (filtered_masks, mask_overlay_path).

(** The call [stitch_dummy_masks(image_path, filtered_masks, selected)] as
    made by the script: the image at the path is decoded first, and the
    stitched mask is saved last. *)
Definition call_stitch_dummy_masks (env : Env) (image_path : option string)
    (filtered_masks : list CandidateMask)
    (selected_indices : list string) : M unit :=
  '(h, w) ← lift (image_shape env image_path);
  img ← lift (stitch_dummy_masks h w filtered_masks selected_indices);
  save_stitched_mask img.

(** [generate_result]: the pipeline is loaded and run and its output is
    saved at uploads/result.png, whose path is returned. *)
Definition generate_result (env : Env) (input_image_path : option string)
    (mask_image_path : option string) (prompt negative_prompt : string)
  : M string :=
  lift (pipe_run env input_image_path mask_image_path prompt negative_prompt);;
  let output_image_path := path_join UPLOAD_FOLDER "result.png" in
  mret output_image_path.

Definition get_current_stage : M string := fun w =>
  (Ok (default "upload" (query_params w !! "stage")), w).

Definition update_query_params (stage : string)
    (kwargs : list (string * string)) : M unit :=
  modify_query (fun _ => ∅);;
  modify_query (insert "stage" stage);;
  modify_query (fun q => foldl (fun q kv => <[kv.1 := kv.2]> q) q kwargs).

(** [len(x)] for [x] that is [None] or a list: the list, whose length is
    taken, or the [TypeError] raised on [None]. *)
Definition len_arg {A} (x : option (list A)) : result (list A) :=
  match x with
  | Some l => Ok l
  | None => Raise TypeError
  end.

(** [os.path.basename(x)] for [x] that is [None] or a [str]. *)
Definition os_path_basename (x : option string) : result string :=
  match x with
  | Some p => Ok (basename p)
  | None => Raise TypeError
  end.

Definition init_session_state : M unit :=
  s ← get_session;
  match image_path s with
  | None =>
      assign (set_image_path None);;
      assign (set_prompt None);;
      assign (set_mask_overlay_path None);;
      assign (set_masks None);;
      assign (set_stitched_mask_path None);;
      assign (set_selected_masks []);;
      assign (set_output_image_path None)
  | Some _ => mret tt
  end.

Definition restore_state (env : Env) (current_stage : string) : M unit :=
  if String.eqb current_stage "upload" then
    assign (set_stage "upload")
  else if String.eqb current_stage "mask_selection" then
    image_filename ← query_get "image";
    match image_filename with
    | Some (String c name) =>
        assign (set_image_path
                  (Some (path_join UPLOAD_FOLDER (String c name))));;
        assign (set_stage "mask_selection");;
        overlay ← attr "mask_overlay_path" mask_overlay_path;
        match overlay with
        | None =>
            path ← attr "image_path" image_path;
            r ← lift (generate_dummy_masks env path);
            assign (set_masks (Some r.1));;
            assign (set_mask_overlay_path (Some r.2))
        | Some _ => mret tt
        end
    | _ => mret tt
    end
  else if String.eqb current_stage "check" then
    assign (set_stage "check")
  else if String.eqb current_stage "result" then
    assign (set_stage "result")
  else mret tt.

Definition upload_page (env : Env) (ui : Widgets) : M unit :=
  render (Header "Upload Image");;
  let prompt := enter_prompt ui in
  let negative_promt := enter_negative_prompt ui in
  match uploaded_file ui with
  | Some name =>
      let image_path := path_join UPLOAD_FOLDER name in
      lift (save_upload env image_path);;
      st_image env (Some image_path) "";;
      if (st_button ui "Create Mask" && negb (String.eqb prompt ""))%bool
      then
        r ← lift (generate_dummy_masks env (Some image_path));
        assign (set_image_path (Some image_path));;
        assign (set_mask_overlay_path (Some r.2));;
        assign (set_masks (Some r.1));;
        assign (set_prompt (Some prompt));;
        assign (set_negative_prompt negative_promt);;
        update_query_params "mask_selection"
          [("image", basename image_path)];;
        st_rerun
      else mret tt
  | None => mret tt
  end.

Definition mask_selection_page (env : Env) (ui : Widgets) : M unit :=
  render (Header "Select Masks");;
  overlay ← attr "mask_overlay_path" mask_overlay_path;
  st_image env overlay "Mask Overlay";;
  ms ← attr "masks" masks;
  ms ← lift (len_arg ms);
  let selected_masks :=
    st_multiselect (str_of_nat <$> seq 0 (length ms)) (chosen_masks ui) in
  if st_button ui "Proceed" then
    let stitched_mask_path := path_join UPLOAD_FOLDER "stitched_mask.png" in
    path ← attr "image_path" image_path;
    (* [st.session_state.masks] is read again: it is the list [ms] still *)
    call_stitch_dummy_masks env path ms selected_masks;;
    assign (set_stitched_mask_path (Some stitched_mask_path));;
    assign (set_selected_masks selected_masks);;
    path ← attr "image_path" image_path;
    name ← lift (os_path_basename path);
    update_query_params "check" [("image", name)];;
    st_rerun
  else mret tt.

Definition check_page (env : Env) (ui : Widgets) : M unit :=
  render (Header "Check and Update");;
  path ← attr "image_path" image_path;
  st_image env path "Input Image";;
  stitched ← attr "stitched_mask_path" stitched_mask_path;
  st_image env stitched "Stitched Mask";;
  p ← attr "prompt" prompt;
  let updated_prompt := st_text_input (update_prompt ui) (or_empty p) in
  np ← attr "negative_prompt" negative_prompt;
  let updated_negative_prompt :=
    st_text_input (update_negative_prompt ui) np in
  if st_button ui "Update and Proceed" then
    assign (set_prompt (Some updated_prompt));;
    assign (set_negative_prompt updated_negative_prompt);;
    path ← attr "image_path" image_path;
    stitched ← attr "stitched_mask_path" stitched_mask_path;
    result ← generate_result env path stitched
               updated_prompt updated_negative_prompt;
    assign (set_result_path result);;
    result ← attr "result_path" result_path;
    update_query_params "result" [("image", basename result)];;
    st_rerun
  else mret tt.

Definition result_page (env : Env) (ui : Widgets) : M unit :=
  render (Header "Result");;
  p ← attr "prompt" prompt;
  render (Markdown ("**Prompt:** " ++ str_of p));;
  path ← attr "image_path" image_path;
  st_image env path "Input Image";;
  let result := path_join UPLOAD_FOLDER "result.png" in
  saved ← attr "result_path" result_path;
  lift (resave_result env saved);;
  st_image env (Some result) "Result Image";;
  (if st_button ui "Reuse Output Image" then
     (* the name [output_image_path] is bound nowhere in [main] *)
     raise (NameError "output_image_path")
   else mret tt);;
  if st_button ui "Restart Process" then
    assign (set_image_path None);;
    assign (set_prompt None);;
    assign (set_mask_overlay_path None);;
    assign (set_masks None);;
    assign (set_stitched_mask_path None);;
    update_query_params "upload" [];;
    st_rerun
  else mret tt.

(** One run of the script. *)
Definition main (env : Env) (ui : Widgets) : M unit :=
  render (Title "RapidEdit");;
  current_stage ← get_current_stage;
  init_session_state;;
  restore_state env current_stage;;
  if String.eqb current_stage "upload" then upload_page env ui
  else if String.eqb current_stage "mask_selection" then
    mask_selection_page env ui
  else if String.eqb current_stage "check" then check_page env ui
  else if String.eqb current_stage "result" then result_page env ui
  else mret tt.


(** ** Concrete collaborators and inputs, to run the script on examples *)

(** Collaborators that all succeed, but for the inpainting pipeline which
    gives [inpaint]: the segmentation model returns [raw] and every image
    decodes to the shape [shape]. *)
Definition env_with (raw : list CandidateMask) (shape : nat * nat)
    (inpaint : result unit) : Env :=
  mkEnv (fun _ => Ok raw) (fun _ _ => Ok tt) (fun _ => Ok shape)
        (fun _ _ _ _ => inpaint) (fun _ => Ok tt) (fun _ => Ok tt)
        (fun _ => Ok tt).

(** A run in which the user has entered nothing and clicked [button]. *)
Definition click (button : option string) : Widgets :=
  mkWidgets None "" "" [] None None button.

(** The texts of the headers on a page: the stage views rendered. *)
Definition rendered_views (pg : list element) : list string :=
  omap (fun e => match e with Header t => Some t | _ => None end) pg.

(** The four stages of the workflow, the identifier each one has in the
    [stage] query parameter and the header of its view. *)
Inductive WorkflowStage : Type := Upload | MaskSelection | Check | Result.

Definition stage_of_identifier (id : string) : option WorkflowStage :=
  if String.eqb id "upload" then Some Upload
  else if String.eqb id "mask_selection" then Some MaskSelection
  else if String.eqb id "check" then Some Check
  else if String.eqb id "result" then Some Result
  else None.

Definition stage_header (st : WorkflowStage) : string :=
  match st with
  | Upload => "Upload Image"
  | MaskSelection => "Select Masks"
  | Check => "Check and Update"
  | Result => "Result"
  end.

(** A run leaves the stage views on the page as they are. *)
Definition keeps_views {A} (m : M A) : Prop :=
  forall w, rendered_views (page (m w).2) = rendered_views (page w).

(** The value 0 or 1 of a boolean in a uint8 array. *)
Definition bit (b : bool) : Z := if b then 1%Z else 0%Z.

(** The session state after the initialisation block of [main]. *)
Definition init_fields (s : SessionState) : SessionState :=
  match image_path s with
  | None =>
      set_output_image_path None
        (set_selected_masks []
           (set_stitched_mask_path None
              (set_masks None
                 (set_mask_overlay_path None
                    (set_prompt None (set_image_path None s))))))
  | Some _ => s
  end.

(** The identifier of a stage in the [stage] query parameter. *)
Definition identifier_of_stage (st : WorkflowStage) : string :=
  match st with
  | Upload => "upload"
  | MaskSelection => "mask_selection"
  | Check => "check"
  | Result => "result"
  end.

(** The stage that the page of a stage passes to [update_query_params]. *)
Definition successor (st : WorkflowStage) : WorkflowStage :=
  match st with
  | Upload => MaskSelection
  | MaskSelection => Check
  | Check => Result
  | Result => Upload
  end.

(** The stage identifier a run starts from. *)
Definition current_identifier (w : World) : string :=
  default "upload" (query_params w !! "stage").

(** A script either leaves the query parameters as they are, or ends by
    asking for a rerun with [stage] set to the [target], if there is one. *)
Definition moves_to (target : option string) {A} (m : M A) : Prop :=
  forall w,
    query_params (m w).2 = query_params w
    \/ ((m w).1 = Raise RerunException
        /\ is_Some target
        /\ query_params (m w).2 !! "stage" = target).

(** The world in which the next run starts: the page is drawn anew. *)
Definition next_run (w : World) : World :=
  mkWorld (query_params w) (session_state w) (stitched_mask_png w) [].

(** Successive runs of the script, each with its collaborators and its
    widget values. *)
Fixpoint runs (steps : list (Env * Widgets)) (w : World) : World :=
  match steps with
  | [] => w
  | (env, ui) :: steps' => runs steps' (next_run (main env ui w).2)
  end.

(** Whether an optional value is there. *)
Definition is_some {A} (x : option A) : bool :=
  match x with
  | Some _ => true
  | None => false
  end.

(** The integer that [int(idx.strip())] gives for a selection entry, if
    it gives one. *)
Definition entry_int (s : string) : option Z :=
  match Py.int (Py.strip (list_ascii_of_string s)) with
  | Ok i => Some i
  | Raise _ => None
  end.

(** The position that [filtered_masks[i - 1]] reads among [n] masks, with
    Python's indexing: the entries from [-(n-1)] to [n] reach a mask. *)
Definition python_position (n : nat) (i : Z) : option nat :=
  if ((- Z.of_nat n <? i)%Z && (i <=? Z.of_nat n)%Z)%bool
  then Some (Z.to_nat ((i - 1) mod Z.of_nat n))
  else None.

(** Whether a path contains a slash. *)
Fixpoint has_sep (p : string) : bool :=
  match p with
  | EmptyString => false
  | String c p' => Ascii.eqb c "/" || has_sep p'
  end.

(** * Properties *)

Example stitch_two :
  stitch_dummy_masks 1 2
    [mkMask [[true; false]] 1; mkMask [[false; true]] 1] ["1"; " 2 "]
  = Ok [[255; 255]]%Z.
Proof. reflexivity. Qed.

Example stitch_zero_wraps :
  stitch_dummy_masks 1 2
    [mkMask [[true; false]] 1; mkMask [[false; true]] 1] ["0"]
  = Ok [[0; 255]]%Z.
Proof. reflexivity. Qed.

Example logical_or_broadcasts :
  Np.logical_or [[0; 1]; [0; 0]]%Z [[true]; [false]]
  = Ok [[true; true]; [false; false]].
Proof. reflexivity. Qed.

Example logical_or_shape_mismatch :
  Np.logical_or [[0; 1]; [0; 0]]%Z [[true; false; true]] = Raise ValueError.
Proof. reflexivity. Qed.

(** ** Arrays *)

Section Arrays.
Context {A : Type}.
Implicit Types (f g : nat -> nat -> A) (a : list (list A)).

Lemma length_tabulate h w f : length (Np.tabulate h w f) = h.
Proof. unfold Np.tabulate. by rewrite length_fmap, length_seq. Qed.

Lemma lookup_tabulate h w f i :
  i < h -> Np.tabulate h w f !! i = Some (f i <$> seq 0 w).
Proof.
  intros Hi. unfold Np.tabulate.
  by rewrite list_lookup_fmap, lookup_seq_lt.
Qed.

Lemma at2_tabulate d h w f i j :
  i < h -> j < w -> Np.at2 d (Np.tabulate h w f) i j = f i j.
Proof.
  intros Hi Hj. unfold Np.at2. rewrite lookup_tabulate by done.
  by rewrite list_lookup_fmap, lookup_seq_lt.
Qed.

Lemma has_shape_tabulate h w f : Np.has_shape h w (Np.tabulate h w f).
Proof.
  split; [apply length_tabulate |].
  unfold Np.tabulate. apply Forall_fmap, Forall_forall. intros i _. simpl.
  by rewrite length_fmap, length_seq.
Qed.

Lemma tabulate_ext h w f g :
  (forall i j, i < h -> j < w -> f i j = g i j) ->
  Np.tabulate h w f = Np.tabulate h w g.
Proof.
  intros Hfg. unfold Np.tabulate.
  apply list_fmap_ext. intros k i Hi.
  apply lookup_seq in Hi as [-> Hi].
  apply list_fmap_ext. intros k' j Hj.
  apply lookup_seq in Hj as [-> Hj]. by apply Hfg.
Qed.

Lemma tabulate_no_row w w' f : Np.tabulate 0 w f = Np.tabulate 0 w' f.
Proof. reflexivity. Qed.

(** The shape read off a rectangular array. *)
Lemma shape_has_shape h w a :
  Np.has_shape h w a ->
  Np.shape a = (h, if decide (h = 0) then 0 else w).
Proof.
  intros [Hlen Hrows]. unfold Np.shape. destruct a as [|row a]; simpl in *.
  - by subst.
  - subst h. apply Forall_cons in Hrows as [-> _]. done.
Qed.

Lemma tabulate_at2 d h w a :
  Np.has_shape h w a -> a = Np.tabulate h w (Np.at2 d a).
Proof.
  intros [Hlen Hrows]. apply list_eq. intros i.
  destruct (decide (i < h)) as [Hi|Hi].
  - rewrite lookup_tabulate by done.
    destruct (lookup_lt_is_Some_2 a i) as [row Hrow]; [lia |].
    rewrite Hrow. f_equal.
    assert (length row = w) as Hw.
    { eapply Forall_lookup_1 in Hrows; eauto. }
    apply list_eq. intros j. rewrite list_lookup_fmap.
    destruct (decide (j < w)) as [Hj|Hj].
    + rewrite lookup_seq_lt by done. simpl. unfold Np.at2. rewrite Hrow.
      destruct (lookup_lt_is_Some_2 row j) as [x Hx]; [lia |].
      by rewrite Hx.
    + rewrite (lookup_ge_None_2 row) by lia.
      by rewrite (lookup_ge_None_2 (seq 0 w)) by (rewrite length_seq; lia).
  - rewrite (lookup_ge_None_2 a) by lia.
    by rewrite lookup_ge_None_2 by (rewrite length_tabulate; lia).
Qed.

End Arrays.

Lemma bidx_lt n i : i < n -> Np.bidx n i = i.
Proof. unfold Np.bidx. case_decide; lia. Qed.

Lemma broadcast_dim_same n : Np.broadcast_dim n n = Some n.
Proof. unfold Np.broadcast_dim. by rewrite decide_True. Qed.

(** On operands of one shape [np.logical_or] is the element-wise OR. *)
Lemma logical_or_same_shape h w (f : nat -> nat -> Z) (b : list (list bool)) :
  Np.has_shape h w b ->
  Np.logical_or (Np.tabulate h w f) b
  = Ok (Np.tabulate h w (fun i j => negb (f i j =? 0)%Z || Np.at2 false b i j)).
Proof.
  intros Hb. unfold Np.logical_or.
  rewrite (shape_has_shape h w _ (has_shape_tabulate h w f)).
  rewrite (shape_has_shape h w _ Hb).
  rewrite !broadcast_dim_same. f_equal.
  case_decide as Hh.
  - subst h. reflexivity.
  - apply tabulate_ext. intros i j Hi Hj.
    rewrite !bidx_lt by done. by rewrite at2_tabulate.
Qed.

Lemma fmap_tabulate {A B} (g : A -> B) h w (f : nat -> nat -> A) :
  (fun row : list A => g <$> row) <$> Np.tabulate h w f
  = Np.tabulate h w (fun i j => g (f i j)).
Proof.
  unfold Np.tabulate. rewrite <- list_fmap_compose.
  apply list_fmap_ext. intros _ i _. simpl.
  by rewrite <- list_fmap_compose.
Qed.

Lemma zeros_tabulate h w : Np.zeros h w = Np.tabulate h w (fun _ _ => 0%Z).
Proof.
  assert (Np.has_shape h w (Np.zeros h w)) as Hs.
  { split; [apply length_replicate |].
    apply Forall_replicate, length_replicate. }
  rewrite (tabulate_at2 0%Z h w _ Hs) at 1.
  apply tabulate_ext. intros i j Hi Hj.
  unfold Np.at2, Np.zeros. rewrite lookup_replicate_2 by done.
  by rewrite lookup_replicate_2.
Qed.

(** ** The compositor on a valid selection *)

Lemma masks_shaped_lookup h w masks k m :
  masks_shaped h w masks = true ->
  masks !! k = Some m ->
  Np.has_shape h w (segmentation m).
Proof.
  unfold masks_shaped. rewrite forallb_forall. intros Hall Hk.
  specialize (Hall m). rewrite <- list_elem_of_In in Hall.
  specialize (Hall (list_elem_of_lookup_2 _ _ _ Hk)).
  apply andb_prop in Hall as [Hlen Hrows].
  apply bool_decide_eq_true in Hlen. split; [done |].
  apply Forall_forall. intros row Hrow.
  rewrite forallb_forall in Hrows. rewrite list_elem_of_In in Hrow.
  specialize (Hrows row Hrow). by apply bool_decide_eq_true in Hrows.
Qed.

Lemma index_in_range {A} (l : list A) k x :
  l !! k = Some x -> Py.index l (Z.of_nat k) = Ok x.
Proof.
  intros Hk. pose proof (lookup_lt_Some _ _ _ Hk) as Hlt.
  unfold Py.index.
  replace (Z.of_nat k <? 0)%Z with false by (symmetry; apply Z.ltb_ge; lia).
  replace (0 <=? Z.of_nat k)%Z with true by (symmetry; apply Z.leb_le; lia).
  replace (Z.of_nat k <? Z.of_nat (length l))%Z with true
    by (symmetry; apply Z.ltb_lt; lia).
  simpl. by rewrite Nat2Z.id, Hk.
Qed.

(** The loop of [stitch_dummy_masks] over in-range positions: the
    accumulator, started from the 0/1 image of [p], ends as the 0/1 image
    of [p] OR-ed with the masks visited. *)
Lemma stitch_loop h w masks ks (p : nat -> nat -> bool) :
  masks_shaped h w masks = true ->
  Forall (fun k => k < length masks) ks ->
  for_each (fun combined_mask idx =>
              let* m := Py.index masks idx in
              rmap Np.astype_uint8
                   (Np.logical_or combined_mask (segmentation m)))
           (Np.tabulate h w (fun i j => bit (p i j)))
           (Z.of_nat <$> ks)
  = Ok (Np.tabulate h w (fun i j =>
          bit (p i j
               || existsb (fun m => Np.at2 false m i j) (masks_at masks ks)))).
Proof.
  intros Hshape Hks. revert p.
  induction Hks as [|k ks Hk _ IH]; intros p.
  - simpl. f_equal. apply tabulate_ext. intros i j _ _.
    by rewrite orb_false_r.
  - destruct (lookup_lt_is_Some_2 masks k Hk) as [m Hm].
    simpl. rewrite (index_in_range _ _ _ Hm). simpl.
    rewrite (logical_or_same_shape h w _ _
               (masks_shaped_lookup _ _ _ _ _ Hshape Hm)).
    unfold rmap, Np.astype_uint8. simpl. rewrite fmap_tabulate.
    etrans;
      [exact (IH (fun i j => negb (bit (p i j) =? 0)%Z
                             || Np.at2 false (segmentation m) i j)) |].
    f_equal. apply tabulate_ext. intros i j _ _.
    unfold masks_at. simpl. rewrite Hm. simpl.
    by destruct (p i j), (Np.at2 false (segmentation m) i j).
Qed.

Lemma valid_index_Some n s k :
  valid_index n s = Some k ->
  Py.int (Py.strip (list_ascii_of_string s)) = Ok (Z.of_nat k + 1)%Z /\ k < n.
Proof.
  unfold valid_index.
  destruct (Py.int (Py.strip (list_ascii_of_string s))) as [i|e]; [|done].
  destruct (1 <=? i)%Z eqn:H1; simpl; [|done].
  destruct (i <=? Z.of_nat n)%Z eqn:H2; [|done].
  apply Z.leb_le in H1, H2. intros [= <-]. split; [f_equal |]; lia.
Qed.

Lemma indices_lt n sel : Forall (fun k => k < n) (indices n sel).
Proof.
  unfold indices. induction sel as [|s sel IH]; simpl; [constructor |].
  destruct (valid_index n s) as [k|] eqn:Hk; simpl; [|done].
  constructor; [|done]. by apply valid_index_Some in Hk as [_ ?].
Qed.

(** The list comprehension of [stitch_dummy_masks] on a valid selection. *)
Lemma traverse_valid n sel :
  valid_selection n sel = true ->
  traverse (fun idx =>
              rmap (fun i => i - 1)%Z
                   (Py.int (Py.strip (list_ascii_of_string idx)))) sel
  = Ok (Z.of_nat <$> indices n sel).
Proof.
  unfold valid_selection, indices.
  induction sel as [|s sel IH]; simpl; [done |].
  intros [Hs Hsel]%andb_prop. apply bool_decide_eq_true in Hs as [k Hk].
  rewrite Hk. simpl. apply valid_index_Some in Hk as [-> _].
  simpl. rewrite (IH Hsel). simpl. do 3 f_equal. lia.
Qed.

(** On a valid selection the compositor saves the binary image of the
    pixel-wise OR of the selected masks. *)
Lemma stitch_valid h w masks sel :
  masks_shaped h w masks = true ->
  valid_selection (length masks) sel = true ->
  stitch_dummy_masks h w masks sel
  = Ok (binary_image
          (pixelwise_or h w (masks_at masks (indices (length masks) sel)))).
Proof.
  intros Hshape Hsel. unfold stitch_dummy_masks.
  rewrite (traverse_valid _ _ Hsel). simpl.
  rewrite zeros_tabulate.
  pose proof (stitch_loop h w masks _ (fun _ _ => false) Hshape
                (indices_lt (length masks) sel)) as Hloop.
  simpl in Hloop. rewrite Hloop. simpl. f_equal.
  unfold Np.mul_uint8, binary_image, pixelwise_or.
  rewrite !fmap_tabulate. apply tabulate_ext. intros i j _ _.
  by destruct (existsb _ _).
Qed.

Lemma valid_selection_Forall n sel :
  valid_selection n sel = true <->
  Forall (fun s => is_Some (valid_index n s)) sel.
Proof.
  unfold valid_selection. rewrite forallb_forall, Forall_forall.
  split; intros H s Hs.
  - apply list_elem_of_In in Hs. by eapply bool_decide_eq_true_1, H.
  - apply list_elem_of_In in Hs. by eapply bool_decide_eq_true_2, H.
Qed.

Lemma elem_of_indices n sel k :
  k ∈ indices n sel <-> exists s, s ∈ sel /\ valid_index n s = Some k.
Proof. unfold indices. apply list_elem_of_omap. Qed.

Lemma elem_of_masks_at masks ks (a : list (list bool)) :
  a ∈ masks_at masks ks <->
  exists k m, k ∈ ks /\ masks !! k = Some m /\ segmentation m = a.
Proof.
  unfold masks_at. rewrite list_elem_of_omap. split.
  - intros (k & Hk & Ha). destruct (masks !! k) as [m|] eqn:Hm; [|done].
    simpl in Ha. injection Ha as <-. by exists k, m.
  - intros (k & m & Hk & Hm & <-). exists k. by rewrite Hm.
Qed.

(** The pixel-wise OR depends on the set of masks only. *)
Lemma pixelwise_or_same_masks h w (ms ms' : list (list (list bool))) :
  (forall a, a ∈ ms <-> a ∈ ms') ->
  pixelwise_or h w ms = pixelwise_or h w ms'.
Proof.
  intros Hms. unfold pixelwise_or. apply tabulate_ext. intros i j _ _.
  apply eq_true_iff_eq. rewrite !existsb_exists.
  split; intros (a & Ha & Hpx); exists a; split; try done;
    apply list_elem_of_In; apply Hms; by apply list_elem_of_In.
Qed.

(** Two valid selections that denote the same set of indices give the
    same stitched mask. *)
Lemma stitch_same_indices h w masks sel sel' :
  masks_shaped h w masks = true ->
  valid_selection (length masks) sel = true ->
  valid_selection (length masks) sel' = true ->
  (forall k, k ∈ indices (length masks) sel
             <-> k ∈ indices (length masks) sel') ->
  stitch_dummy_masks h w masks sel = stitch_dummy_masks h w masks sel'.
Proof.
  intros Hshape Hsel Hsel' Hsame.
  rewrite !stitch_valid by done. do 2 f_equal.
  apply pixelwise_or_same_masks. intros a. rewrite !elem_of_masks_at.
  split; intros (k & m & Hk & Hm); exists k, m; split; try done;
    by apply Hsame.
Qed.

Lemma at2_binary_image h w (q : nat -> nat -> bool) r c :
  r < h -> c < w ->
  Np.at2 0%Z (binary_image (Np.tabulate h w q)) r c
  = if q r c then 255%Z else 0%Z.
Proof.
  intros Hr Hc. unfold binary_image. rewrite fmap_tabulate.
  by rewrite at2_tabulate.
Qed.

Lemma binary_image_values (a : list (list bool)) :
  Forall (Forall (fun v => v = 0%Z \/ v = 255%Z)) (binary_image a).
Proof.
  unfold binary_image. apply Forall_fmap, Forall_forall. intros row _. simpl.
  apply Forall_fmap, Forall_forall. intros b _. simpl.
  destruct b; auto.
Qed.

Lemma has_shape_binary_image h w (a : list (list bool)) :
  Np.has_shape h w a -> Np.has_shape h w (binary_image a).
Proof.
  intros [Hlen Hrows]. unfold binary_image. split.
  - by rewrite length_fmap.
  - apply Forall_fmap. eapply Forall_impl; [exact Hrows |].
    intros row Hrow. simpl. by rewrite length_fmap.
Qed.

(** ** The Mask Compositor: claims *)

(** C7.  For an image of [h] rows and [w] columns, candidate masks over
    that pixel grid and a valid (possibly empty) selection, the compositor
    succeeds with one [h] by [w] image whose pixels are all 0 or 255 and
    which is the pixel-wise OR of the selected masks: a pixel is 255
    exactly when some selected mask is true there.  The empty selection
    gives the all-zero image. *)
Theorem stitch_is_pixelwise_or h w masks sel :
  masks_shaped h w masks = true ->
  valid_selection (length masks) sel = true ->
  exists img,
    stitch_dummy_masks h w masks sel = Ok img
    /\ Np.has_shape h w img
    /\ Forall (Forall (fun v => v = 0%Z \/ v = 255%Z)) img
    /\ img = binary_image
               (pixelwise_or h w
                  (masks_at masks (indices (length masks) sel)))
    /\ (forall r c, r < h -> c < w ->
          Np.at2 0%Z img r c = 255%Z <->
          exists s k m,
            s ∈ sel /\ valid_index (length masks) s = Some k
            /\ masks !! k = Some m
            /\ Np.at2 false (segmentation m) r c = true)
    /\ (sel = [] -> img = Np.zeros h w).
Proof.
  intros Hshape Hsel. eexists. split; [by apply stitch_valid |].
  split; [apply has_shape_binary_image, has_shape_tabulate |].
  split; [apply binary_image_values |].
  split; [done |]. split.
  - intros r c Hr Hc. unfold pixelwise_or.
    rewrite at2_binary_image by done.
    destruct (existsb _ _) eqn:Hex.
    + split; [intros _ | done].
      apply existsb_exists in Hex as (a & Ha & Hpx).
      apply list_elem_of_In, elem_of_masks_at in Ha
        as (k & m & Hk & Hm & <-).
      apply elem_of_indices in Hk as (s & Hs & Hk).
      by exists s, k, m.
    + split; [done |]. intros (s & k & m & Hs & Hk & Hm & Hpx).
      apply not_true_iff_false in Hex. exfalso. apply Hex.
      apply existsb_exists. exists (segmentation m). split; [|done].
      apply list_elem_of_In, elem_of_masks_at. exists k, m.
      split; [|done]. apply elem_of_indices. by exists s.
  - intros ->. simpl. rewrite zeros_tabulate.
    unfold binary_image, pixelwise_or. by rewrite fmap_tabulate.
Qed.

Lemma stitch_is_pixelwise_or_witness :
  exists img,
    stitch_dummy_masks 2 2
      [mkMask [[true; false]; [false; false]] 600;
       mkMask [[false; false]; [false; true]] 700;
       mkMask [[false; true]; [false; false]] 800]
      ["1"; "3"] = Ok img
    /\ img = [[255; 255]; [0; 0]]%Z.
Proof.
  destruct (stitch_is_pixelwise_or 2 2
              [mkMask [[true; false]; [false; false]] 600;
               mkMask [[false; false]; [false; true]] 700;
               mkMask [[false; true]; [false; false]] 800]
              ["1"; "3"] eq_refl eq_refl)
    as (img & Hrun & _ & _ & Himg & _).
  exists img. split; [exact Hrun |]. rewrite Himg. reflexivity.
Defined.



(** C10.  Listing an index more than once changes nothing: a valid
    selection and the same selection with its repeated entries removed give
    the same stitched mask, and so does the selection extended, at any
    place, by an entry that denotes an index it already holds. *)
Theorem stitch_duplicates_idempotent h w masks sel :
  masks_shaped h w masks = true ->
  valid_selection (length masks) sel = true ->
  stitch_dummy_masks h w masks (remove_dups sel)
  = stitch_dummy_masks h w masks sel
  /\ (forall l1 l2 s s',
        sel = l1 ++ l2 -> s' ∈ sel ->
        valid_index (length masks) s = valid_index (length masks) s' ->
        stitch_dummy_masks h w masks (l1 ++ s :: l2)
        = stitch_dummy_masks h w masks sel).
Proof.
  intros Hshape Hsel. pose proof Hsel as Hall.
  apply valid_selection_Forall in Hall. split.
  - apply stitch_same_indices; try done.
    + apply valid_selection_Forall, Forall_forall. intros s Hs.
      rewrite elem_of_remove_dups in Hs.
      rewrite Forall_forall in Hall. by apply Hall.
    + intros k. rewrite !elem_of_indices.
      by setoid_rewrite elem_of_remove_dups.
  - intros l1 l2 s s' -> Hs' Heq.
    assert (is_Some (valid_index (length masks) s)) as Hs.
    { rewrite Heq. rewrite Forall_forall in Hall. by apply Hall. }
    apply stitch_same_indices; try done.
    + apply valid_selection_Forall.
      apply Forall_app in Hall as [H1 H2].
      apply Forall_app. split; [done |]. by constructor.
    + intros k. rewrite !elem_of_indices. split.
      * intros (t & Ht & Hk).
        rewrite elem_of_app, elem_of_cons in Ht.
        destruct Ht as [Ht|[->|Ht]].
        { exists t. split; [rewrite elem_of_app; by left | done]. }
        { exists s'. split; [done | by rewrite <- Heq]. }
        exists t. split; [rewrite elem_of_app; by right | done].
      * intros (t & Ht & Hk). exists t. split; [|done].
        rewrite elem_of_app in Ht. rewrite elem_of_app, elem_of_cons. tauto.
Qed.

Lemma stitch_duplicates_idempotent_witness :
  stitch_dummy_masks 1 3
    [mkMask [[true; false; false]] 600; mkMask [[false; false; true]] 700]
    (remove_dups ["2"; "1"; "2"])
  = stitch_dummy_masks 1 3
      [mkMask [[true; false; false]] 600; mkMask [[false; false; true]] 700]
      ["2"; "1"; "2"]
  /\ stitch_dummy_masks 1 3
       [mkMask [[true; false; false]] 600; mkMask [[false; false; true]] 700]
       (["2"; "1"] ++ [" 1 "; "2"])
     = stitch_dummy_masks 1 3
         [mkMask [[true; false; false]] 600;
          mkMask [[false; false; true]] 700]
         ["2"; "1"; "2"].
Proof.
  destruct (stitch_duplicates_idempotent 1 3
              [mkMask [[true; false; false]] 600;
               mkMask [[false; false; true]] 700]
              ["2"; "1"; "2"] eq_refl eq_refl) as [Hdups Hins].
  split; [exact Hdups |].
  apply (Hins ["2"; "1"] ["2"] " 1 " "1" eq_refl); [set_solver | reflexivity].
Defined.

(** ** The Mask Compositor outside the range 1..N *)

Lemma for_each_app {A S} (body : S -> A -> result S) s l1 l2 :
  for_each body s (l1 ++ l2)
  = let* s' := for_each body s l1 in for_each body s' l2.
Proof.
  revert s. induction l1 as [|x l1 IH]; intros s; simpl; [done |].
  destruct (body s x); simpl; [apply IH | done].
Qed.

(** An index above N, or at most -N, does raise [IndexError]. *)
Lemma index_out_of_range {A} (l : list A) (i : Z) :
  (i > Z.of_nat (length l) \/ i <= - Z.of_nat (length l))%Z ->
  Py.index l (i - 1) = Raise IndexError.
Proof.
  intros Hi. unfold Py.index.
  destruct (i - 1 <? 0)%Z eqn:Hneg.
  - apply Z.ltb_lt in Hneg.
    replace (0 <=? i - 1 + Z.of_nat (length l))%Z with false; [done |].
    symmetry. apply Z.leb_gt. lia.
  - apply Z.ltb_ge in Hneg.
    replace (i - 1 <? Z.of_nat (length l))%Z with false;
      [by rewrite andb_false_r |].
    symmetry. apply Z.ltb_ge. lia.
Qed.

(** A single selected index above N, or at most -N, makes the compositor
    fail with [IndexError]. *)
Lemma stitch_far_out_of_range h w masks s i :
  Py.int (Py.strip (list_ascii_of_string s)) = Ok i ->
  (i > Z.of_nat (length masks) \/ i <= - Z.of_nat (length masks))%Z ->
  stitch_dummy_masks h w masks [s] = Raise IndexError.
Proof.
  intros Hs Hi. unfold stitch_dummy_masks. simpl. rewrite Hs. simpl.
  by rewrite index_out_of_range.
Qed.

(** Index 0 never fails when there is a mask: the position -1 is the
    last mask, whose binary image is what the compositor saves. *)
Lemma stitch_index_zero_is_last h w masks m :
  masks_shaped h w (masks ++ [m]) = true ->
  stitch_dummy_masks h w (masks ++ [m]) ["0"]
  = Ok (binary_image (segmentation m)).
Proof.
  intros Hshape.
  assert ((masks ++ [m]) !! length masks = Some m) as Hm.
  { by rewrite lookup_app_r, Nat.sub_diag by lia. }
  pose proof (masks_shaped_lookup _ _ _ _ _ Hshape Hm) as Hseg.
  unfold stitch_dummy_masks. simpl.
  change (10 * 0 + Z.of_nat 0 - 1)%Z with (-1)%Z.
  assert (Py.index (masks ++ [m]) (-1) = Ok m) as ->.
  { unfold Py.index. rewrite length_app. simpl.
    replace (-1 + Z.of_nat (length masks + 1))%Z
      with (Z.of_nat (length masks)) by lia.
    replace (0 <=? Z.of_nat (length masks))%Z with true
      by (symmetry; apply Z.leb_le; lia).
    replace (Z.of_nat (length masks) <? Z.of_nat (length masks + 1))%Z
      with true by (symmetry; apply Z.ltb_lt; lia).
    simpl. by rewrite Nat2Z.id, Hm. }
  simpl. rewrite zeros_tabulate, (logical_or_same_shape h w _ _ Hseg).
  simpl. unfold Np.astype_uint8, Np.mul_uint8. rewrite !fmap_tabulate.
  f_equal.
  replace (binary_image (segmentation m))
    with (binary_image (Np.tabulate h w (Np.at2 false (segmentation m))))
    by (f_equal; symmetry; by apply tabulate_at2).
  unfold binary_image. rewrite fmap_tabulate.
  apply tabulate_ext. intros i j _ _.
  by destruct (Np.at2 false (segmentation m) i j).
Qed.

(** C1.  On two candidate masks, valid indices 1 and 2, the selection of
    index 0 does not fail: the position computed is -1, which Python
    resolves to the last mask, and the stitched mask saved is mask 2. *)
Theorem stitch_index_zero_selects_last_mask :
  stitch_dummy_masks 1 2
    [mkMask [[true; false]] 600; mkMask [[false; true]] 700] ["0"]
  = Ok [[0; 255]]%Z
  /\ stitch_dummy_masks 1 2
       [mkMask [[true; false]] 600; mkMask [[false; true]] 700] ["0"]
     = stitch_dummy_masks 1 2
         [mkMask [[true; false]] 600; mkMask [[false; true]] 700] ["2"]
  /\ valid_index 2 "0" = None
  /\ "0" ∈ st_multiselect (str_of_nat <$> seq 0 2) ["0"].
Proof. repeat split; [reflexivity.. | vm_compute; set_solver]. Qed.

(** ** The Mask Generation Adapter *)

(** C9.  When the segmentation model returns [raw] (and the overlay is
    drawn), the adapter returns exactly the regions of [raw] whose area
    exceeds 500, in the order of [raw]: every region of area at most 500 is
    removed, every region of area above 500 is kept, and the number
    returned is the number kept. *)
Theorem generate_dummy_masks_area_filter env image_path raw :
  sam_generate env image_path = Ok raw ->
  draw_overlay env image_path (filter (fun m => (area m > 500)%Z) raw)
  = Ok tt ->
  exists kept,
    generate_dummy_masks env image_path
    = Ok (kept, "uploads/mask_overlay.png")
    /\ kept = filter (fun m => (area m > 500)%Z) raw
    /\ (forall m, m ∈ kept <-> m ∈ raw /\ (area m > 500)%Z)
    /\ (forall m, m ∈ raw -> (area m <= 500)%Z -> m ∉ kept)
    /\ sublist kept raw
    /\ length kept + length (filter (fun m => (area m <= 500)%Z) raw)
       = length raw.
Proof.
  intros Hraw Hdraw. eexists. split; [|split; [reflexivity |]].
  { unfold generate_dummy_masks. rewrite Hraw. simpl. by rewrite Hdraw. }
  split; [|split; [|split]].
  - intros m. rewrite list_elem_of_filter. tauto.
  - intros m _ Hsmall [Hbig _]%list_elem_of_filter. lia.
  - apply sublist_filter.
  - clear. induction raw as [|m raw IH]; [done |].
    rewrite !filter_cons. repeat case_decide; simpl; lia.
Qed.

Lemma generate_dummy_masks_area_filter_witness :
  exists kept,
    generate_dummy_masks
      (env_with [mkMask [[true]] 501; mkMask [[false]] 500;
                 mkMask [[true]] 499; mkMask [[true]] 9000]
                (1, 1) (Ok tt))
      (Some "uploads/cat.jpg")
    = Ok (kept, "uploads/mask_overlay.png")
    /\ kept = [mkMask [[true]] 501; mkMask [[true]] 9000].
Proof.
  destruct (generate_dummy_masks_area_filter
              (env_with [mkMask [[true]] 501; mkMask [[false]] 500;
                         mkMask [[true]] 499; mkMask [[true]] 9000]
                        (1, 1) (Ok tt))
              (Some "uploads/cat.jpg") _ eq_refl eq_refl)
    as (kept & Hrun & Hkept & _).
  exists kept. split; [exact Hrun |]. rewrite Hkept. reflexivity.
Defined.

(** ** Runs of the script: the views rendered *)

Lemma run_bind {A B} (m : M A) (k : A -> M B) w :
  (m ≫= k) w
  = match m w with
    | (Ok a, w') => k a w'
    | (Raise e, w') => (Raise e, w')
    end.
Proof. reflexivity. Qed.

Lemma rendered_views_snoc pg e :
  rendered_views (pg ++ [e])
  = rendered_views pg ++ match e with Header t => [t] | _ => [] end.
Proof. unfold rendered_views. rewrite omap_app. by destruct e. Qed.

Lemma keeps_views_bind {A B} (m : M A) (k : A -> M B) :
  keeps_views m -> (forall a, keeps_views (k a)) -> keeps_views (m ≫= k).
Proof.
  intros Hm Hk w. rewrite run_bind. specialize (Hm w).
  destruct (m w) as [[a|e] w']; simpl in *; [|done].
  by rewrite Hk.
Qed.

Lemma keeps_views_ret {A} (a : A) : keeps_views (mret a).
Proof. done. Qed.

Lemma keeps_views_raise {A} e : keeps_views (@raise A e).
Proof. done. Qed.

Lemma keeps_views_lift {A} (r : result A) : keeps_views (lift r).
Proof. done. Qed.

Lemma keeps_views_assign upd : keeps_views (assign upd).
Proof. done. Qed.

Lemma keeps_views_modify_query f : keeps_views (modify_query f).
Proof. done. Qed.

Lemma keeps_views_query_get key : keeps_views (query_get key).
Proof. done. Qed.

Lemma keeps_views_get_session : keeps_views get_session.
Proof. done. Qed.

Lemma keeps_views_get_current_stage : keeps_views get_current_stage.
Proof. done. Qed.

Lemma keeps_views_save_stitched_mask img :
  keeps_views (save_stitched_mask img).
Proof. done. Qed.

Lemma keeps_views_attr {A} name (proj : SessionState -> option A) :
  keeps_views (attr name proj).
Proof. intros w. unfold attr. by destruct (proj (session_state w)). Qed.

Lemma keeps_views_picture path caption :
  keeps_views (render (Picture path caption)).
Proof. intros w. simpl. by rewrite rendered_views_snoc, app_nil_r. Qed.

Lemma keeps_views_markdown text : keeps_views (render (Markdown text)).
Proof. intros w. simpl. by rewrite rendered_views_snoc, app_nil_r. Qed.

Lemma keeps_views_title text : keeps_views (render (Title text)).
Proof. intros w. simpl. by rewrite rendered_views_snoc, app_nil_r. Qed.

Create HintDb views.
#[local] Hint Resolve keeps_views_ret keeps_views_raise keeps_views_lift
  keeps_views_assign keeps_views_modify_query keeps_views_query_get
  keeps_views_get_session keeps_views_get_current_stage
  keeps_views_save_stitched_mask keeps_views_attr keeps_views_picture
  keeps_views_markdown keeps_views_title : views.

(** Splits a script into its calls, branch by branch. *)
Ltac keeps_views :=
  repeat first
    [ progress auto with views
    | apply keeps_views_bind; [|intros ?]
    | match goal with
      | |- keeps_views (if ?b then _ else _) => destruct b
      | |- keeps_views (match ?x with _ => _ end) => destruct x
      end ].

Lemma keeps_views_st_image env path caption :
  keeps_views (st_image env path caption).
Proof. unfold st_image. keeps_views. Qed.

Lemma keeps_views_update_query_params stage kwargs :
  keeps_views (update_query_params stage kwargs).
Proof. unfold update_query_params. keeps_views. Qed.

Lemma keeps_views_st_rerun : keeps_views st_rerun.
Proof. unfold st_rerun. keeps_views. Qed.

Lemma keeps_views_generate_result env a b c d :
  keeps_views (generate_result env a b c d).
Proof. unfold generate_result. keeps_views. Qed.

Lemma keeps_views_call_stitch env path ms sel :
  keeps_views (call_stitch_dummy_masks env path ms sel).
Proof. unfold call_stitch_dummy_masks. keeps_views. Qed.

#[local] Hint Resolve keeps_views_st_image keeps_views_update_query_params
  keeps_views_st_rerun keeps_views_generate_result keeps_views_call_stitch
  : views.

Lemma keeps_views_init_session_state : keeps_views init_session_state.
Proof. unfold init_session_state. keeps_views. Qed.

Lemma keeps_views_restore_state env current_stage :
  keeps_views (restore_state env current_stage).
Proof. unfold restore_state. keeps_views. Qed.

(** A page renders its header first and no other header after it. *)
Lemma header_then_views {A} t (rest : M A) w :
  keeps_views rest ->
  rendered_views (page ((render (Header t);; rest) w).2)
  = rendered_views (page w) ++ [t].
Proof.
  intros Hrest. rewrite run_bind. simpl. rewrite Hrest. simpl.
  by rewrite rendered_views_snoc.
Qed.

Lemma upload_page_views env ui w :
  rendered_views (page (upload_page env ui w).2)
  = rendered_views (page w) ++ ["Upload Image"].
Proof. unfold upload_page. apply header_then_views. keeps_views. Qed.

Lemma mask_selection_page_views env ui w :
  rendered_views (page (mask_selection_page env ui w).2)
  = rendered_views (page w) ++ ["Select Masks"].
Proof. unfold mask_selection_page. apply header_then_views. keeps_views. Qed.

Lemma check_page_views env ui w :
  rendered_views (page (check_page env ui w).2)
  = rendered_views (page w) ++ ["Check and Update"].
Proof. unfold check_page. apply header_then_views. keeps_views. Qed.

Lemma result_page_views env ui w :
  rendered_views (page (result_page env ui w).2)
  = rendered_views (page w) ++ ["Result"].
Proof. unfold result_page. apply header_then_views. keeps_views. Qed.

(** ** The Stage Router *)

Lemma init_session_state_run w :
  init_session_state w
  = (Ok tt, mkWorld (query_params w) (init_fields (session_state w))
              (stitched_mask_png w) (page w)).
Proof.
  destruct w as [qp s png pg]. unfold init_session_state, init_fields.
  rewrite run_bind. simpl. by destruct (image_path s).
Qed.

(** The stage identifiers that [main] tests for, on any other string. *)
Lemma stage_of_identifier_None id :
  stage_of_identifier id = None ->
  String.eqb id "upload" = false /\ String.eqb id "mask_selection" = false
  /\ String.eqb id "check" = false /\ String.eqb id "result" = false.
Proof.
  unfold stage_of_identifier.
  destruct (String.eqb id "upload"); [done |].
  destruct (String.eqb id "mask_selection"); [done |].
  destruct (String.eqb id "check"); [done |].
  by destruct (String.eqb id "result").
Qed.

(** C2, as amended.  A missing [stage] parameter reads as ["upload"].  On
    one of the four identifiers the run renders the view of that stage and
    no other, unless restoring the Mask Selection state raises, in which
    case no view is rendered.  Any other string is returned as it is: no
    view is rendered, the run ends without an exception, and the query
    parameters and the session stage are left as they were. *)
Theorem stage_router_resolution env ui w :
  let id := default "upload" (query_params w !! "stage") in
  let r := main env ui w in
  (get_current_stage w).1 = Ok id
  /\ stage_of_identifier (default "upload" None) = Some Upload
  /\ match stage_of_identifier id with
     | Some st =>
         rendered_views (page r.2)
         = rendered_views (page w) ++ [stage_header st]
         \/ (st = MaskSelection
             /\ (exists e, r.1 = Raise e)
             /\ rendered_views (page r.2) = rendered_views (page w))
     | None =>
         r.1 = Ok tt
         /\ rendered_views (page r.2) = rendered_views (page w)
         /\ query_params r.2 = query_params w
         /\ stage (session_state r.2) = stage (session_state w)
     end.
Proof.
  intros id r. split; [done |]. split; [done |].
  assert (r = (init_session_state;;
               restore_state env id;;
               if String.eqb id "upload" then upload_page env ui
               else if String.eqb id "mask_selection"
                    then mask_selection_page env ui
               else if String.eqb id "check" then check_page env ui
               else if String.eqb id "result" then result_page env ui
               else mret tt)
                (mkWorld (query_params w) (session_state w)
                   (stitched_mask_png w) (page w ++ [Title "RapidEdit"])))
    as -> by done.
  rewrite run_bind, init_session_state_run. rewrite run_bind.
  destruct (stage_of_identifier id) as [st|] eqn:Hst.
  - pose proof (keeps_views_restore_state env id
                  (mkWorld (query_params w) (init_fields (session_state w))
                     (stitched_mask_png w) (page w ++ [Title "RapidEdit"])))
      as Hkeep.
    simpl in Hkeep. rewrite rendered_views_snoc, app_nil_r in Hkeep.
    destruct (restore_state env id _) as [[[]|e] w'] eqn:Hrestore;
      simpl in Hkeep.
    + left. rewrite <- Hkeep. unfold stage_of_identifier in Hst.
      destruct (String.eqb id "upload");
        [injection Hst as <-; apply upload_page_views |].
      destruct (String.eqb id "mask_selection");
        [injection Hst as <-; apply mask_selection_page_views |].
      destruct (String.eqb id "check");
        [injection Hst as <-; apply check_page_views |].
      destruct (String.eqb id "result"); [|done].
      injection Hst as <-. apply result_page_views.
    + right. simpl. split; [|by eauto].
      unfold stage_of_identifier in Hst. unfold restore_state in Hrestore.
      destruct (String.eqb id "upload"); [done |].
      destruct (String.eqb id "mask_selection"); [congruence |].
      destruct (String.eqb id "check"); [done |].
      by destruct (String.eqb id "result").
  - apply stage_of_identifier_None in Hst as (E1 & E2 & E3 & E4).
    unfold restore_state. rewrite E1, E2, E3, E4. simpl.
    rewrite rendered_views_snoc, app_nil_r. repeat split.
    unfold init_fields. by destruct (image_path _).
Qed.

(** C2, as stated, fails: with [stage=foo] the router returns ["foo"], and
    the run renders the title and no view, not the Upload view. *)
Lemma unrecognized_stage_renders_no_view :
  let w := mkWorld {["stage" := "foo"]} empty_session None [] in
  let r := main (env_with [] (1, 1) (Ok tt)) (click None) w in
  (get_current_stage w).1 = Ok "foo"
  /\ (get_current_stage w).1 <> Ok "upload"
  /\ page r.2 = [Title "RapidEdit"]
  /\ ~ "Upload Image" ∈ rendered_views (page r.2).
Proof.
  vm_compute. repeat split; [done | by apply not_elem_of_nil].
Qed.

(** ** Runs of the script, step by step *)

Ltac unfold_script :=
  unfold main, init_session_state, restore_state, upload_page,
    mask_selection_page, check_page, result_page, get_current_stage,
    update_query_params, generate_result, call_stitch_dummy_masks,
    st_image, st_rerun, st_button, attr, assign, render, lift, raise,
    modify_query, query_get, save_stitched_mask, get_session,
    mbind, M_bind, mret, M_ret.

Ltac step :=
  cbn -[lookup insert empty path_join basename stitch_dummy_masks
        generate_dummy_masks].

(** C6.  In the Result stage, with the page rendered as far as the
    buttons, a click on "Reuse Output Image" ends the run with
    [NameError]: the name [output_image_path] is not bound in [main].  The
    query parameters keep [stage=result] and the image path of the session
    is not replaced by the output path. *)
Theorem reuse_output_image_raises env ui w ip p rp :
  query_params w !! "stage" = Some "result" ->
  clicked ui = Some "Reuse Output Image" ->
  image_path (session_state w) = Some ip ->
  prompt (session_state w) = Some p ->
  result_path (session_state w) = Some rp ->
  show_image env ip = Ok tt ->
  resave_result env rp = Ok tt ->
  show_image env (Some (path_join UPLOAD_FOLDER "result.png")) = Ok tt ->
  let r := main env ui w in
  r.1 = Raise (NameError "output_image_path")
  /\ query_params r.2 = query_params w
  /\ session_state r.2 = set_stage "result" (session_state w)
  /\ image_path (session_state r.2) = Some ip.
Proof.
  intros Hstage Hclick Hip Hp Hrp Hshow Hsave Hshow' r. subst r.
  unfold_script. step. rewrite Hstage, Hip. step.
  rewrite Hp. step. rewrite Hip. step. rewrite Hshow. step.
  rewrite Hrp. step. rewrite Hsave. step. rewrite Hshow'. step.
  rewrite Hclick. step. done.
Qed.

Lemma reuse_output_image_raises_witness :
  let w := mkWorld {["stage" := "result"; "image" := "result.png"]}
             (mkSession (Some (Some "uploads/cat.jpg")) (Some (Some "a dog"))
                (Some (Some "uploads/mask_overlay.png")) (Some (Some []))
                (Some (Some "uploads/stitched_mask.png")) (Some [])
                (Some None) (Some "check") (Some "")
                (Some "uploads/result.png"))
             None [] in
  let r := main (env_with [] (1, 1) (Ok tt))
             (click (Some "Reuse Output Image")) w in
  r.1 = Raise (NameError "output_image_path")
  /\ query_params r.2 = query_params w
  /\ session_state r.2 = set_stage "result" (session_state w)
  /\ image_path (session_state r.2) = Some (Some "uploads/cat.jpg").
Proof.
  intros w.
  apply (reuse_output_image_raises (env_with [] (1, 1) (Ok tt))
           (click (Some "Reuse Output Image")) w
           (Some "uploads/cat.jpg") (Some "a dog") "uploads/result.png");
    reflexivity.
Defined.

(** C5.  In the Result stage, with the page rendered as far as the
    buttons, a click on "Restart Process" sets the image path, the prompt,
    the overlay path, the masks and the stitched-mask path to [None], sets
    the query parameters to [stage=upload] alone and asks for a rerun.  The
    selected masks, the negative prompt and the result path are not reset:
    they keep the values they had. *)
Theorem restart_resets_five_fields env ui w ip p rp :
  query_params w !! "stage" = Some "result" ->
  clicked ui = Some "Restart Process" ->
  image_path (session_state w) = Some ip ->
  prompt (session_state w) = Some p ->
  result_path (session_state w) = Some rp ->
  show_image env ip = Ok tt ->
  resave_result env rp = Ok tt ->
  show_image env (Some (path_join UPLOAD_FOLDER "result.png")) = Ok tt ->
  let r := main env ui w in
  r.1 = Raise RerunException
  /\ query_params r.2 = <["stage" := "upload"]> ∅
  /\ session_state r.2
     = set_stitched_mask_path None
         (set_masks None
            (set_mask_overlay_path None
               (set_prompt None
                  (set_image_path None
                     (set_stage "result" (session_state w))))))
  /\ selected_masks (session_state r.2) = selected_masks (session_state w)
  /\ negative_prompt (session_state r.2) = negative_prompt (session_state w)
  /\ result_path (session_state r.2) = Some rp.
Proof.
  intros Hstage Hclick Hip Hp Hrp Hshow Hsave Hshow' r. subst r.
  unfold_script. step. rewrite Hstage, Hip. step.
  rewrite Hp. step. rewrite Hip. step. rewrite Hshow. step.
  rewrite Hrp. step. rewrite Hsave. step. rewrite Hshow'. step.
  rewrite Hclick. step. done.
Qed.

Lemma restart_resets_five_fields_witness :
  let w := mkWorld {["stage" := "result"; "image" := "result.png"]}
             (mkSession (Some (Some "uploads/cat.jpg")) (Some (Some "a dog"))
                (Some (Some "uploads/mask_overlay.png")) (Some (Some []))
                (Some (Some "uploads/stitched_mask.png")) (Some ["1"])
                (Some None) (Some "result") (Some "blurry")
                (Some "uploads/result.png"))
             None [] in
  let r := main (env_with [] (1, 1) (Ok tt))
             (click (Some "Restart Process")) w in
  r.1 = Raise RerunException
  /\ query_params r.2 !! "stage" = Some "upload"
  /\ image_path (session_state r.2) = Some None
  /\ selected_masks (session_state r.2) = Some ["1"]
  /\ negative_prompt (session_state r.2) = Some "blurry"
  /\ result_path (session_state r.2) = Some "uploads/result.png".
Proof.
  intros w.
  destruct (restart_resets_five_fields (env_with [] (1, 1) (Ok tt))
              (click (Some "Restart Process")) w
              (Some "uploads/cat.jpg") (Some "a dog") "uploads/result.png"
              eq_refl eq_refl eq_refl eq_refl eq_refl eq_refl eq_refl
              eq_refl)
    as (Hrun & Hquery & Hstate & Hsel & Hneg & Hres).
  split; [exact Hrun |].
  split; [rewrite Hquery; reflexivity |].
  split; [rewrite Hstate; reflexivity |].
  split; [exact Hsel |]. split; [exact Hneg | exact Hres].
Defined.

(** ** The Inpainting Adapter in the Check stage *)

(** A failing pipeline makes [generate_result] raise in the world it was
    called in. *)
Lemma generate_result_failure env ip sp p np e w :
  pipe_run env ip sp p np = Raise e ->
  generate_result env ip sp p np w = (Raise e, w).
Proof. intros Hrun. unfold_script. step. by rewrite Hrun. Qed.




(** ** Mask Selection without its prerequisite state *)

(** C4.  A new session opened on [stage=mask_selection] with no [image]
    parameter does not fall back to Upload: nothing is restored, the Mask
    Selection view is entered and the run raises, either in [st.image] on
    the missing overlay or, after it, [TypeError] on [len(None)].  The
    query parameters keep [stage=mask_selection]. *)
Theorem mask_selection_without_image_raises env ui w :
  query_params w !! "stage" = Some "mask_selection" ->
  query_params w !! "image" = None ->
  session_state w = empty_session ->
  let r := main env ui w in
  (r.1 = Raise TypeError
   \/ exists e, show_image env None = Raise e /\ r.1 = Raise e)
  /\ rendered_views (page r.2) = rendered_views (page w) ++ ["Select Masks"]
  /\ query_params r.2 = query_params w
  /\ image_path (session_state r.2) = Some None
  /\ masks (session_state r.2) = Some None.
Proof.
  intros Hstage Himage Hfresh r. subst r.
  destruct w as [qp s png pg]. simpl in *. subst s.
  unfold_script. step. rewrite Hstage. step. rewrite Himage. step.
  destruct (show_image env None) as [[]|e]; step.
  - split; [by left |].
    by rewrite !rendered_views_snoc, !app_nil_r.
  - split; [right; by exists e |].
    by rewrite !rendered_views_snoc, !app_nil_r.
Qed.

Lemma mask_selection_without_image_raises_witness :
  let w := mkWorld {["stage" := "mask_selection"]} empty_session None [] in
  let r := main (env_with [] (1, 1) (Ok tt)) (click None) w in
  r.1 = Raise TypeError
  /\ rendered_views (page r.2) = ["Select Masks"]
  /\ query_params r.2 = query_params w.
Proof.
  intros w.
  destruct (mask_selection_without_image_raises
              (env_with [] (1, 1) (Ok tt)) (click None) w
              eq_refl eq_refl eq_refl)
    as ([Hrun|(e & He & _)] & Hviews & Hquery & _).
  - split; [exact Hrun |]. split; [exact Hviews | exact Hquery].
  - discriminate He.
Defined.

(** * Further properties of the script *)

(** ** Query parameters *)

Lemma lookup_foldl_insert_notin (kwargs : list (string * string))
    (q : gmap string string) k :
  k ∉ kwargs.*1 ->
  foldl (fun q kv => <[kv.1 := kv.2]> q) q kwargs !! k = q !! k.
Proof.
  revert q. induction kwargs as [|[k' v'] kwargs IH]; intros q Hk; [done |].
  simpl in *. apply not_elem_of_cons in Hk as [Hne Hk].
  rewrite IH by done. by rewrite lookup_insert_ne.
Qed.

Lemma lookup_foldl_insert_in (kwargs : list (string * string))
    (q : gmap string string) k v :
  NoDup kwargs.*1 -> (k, v) ∈ kwargs ->
  foldl (fun q kv => <[kv.1 := kv.2]> q) q kwargs !! k = Some v.
Proof.
  revert q. induction kwargs as [|[k' v'] kwargs IH]; intros q Hnd Hin.
  - by apply not_elem_of_nil in Hin.
  - simpl in *. apply NoDup_cons in Hnd as [Hk' Hnd].
    apply elem_of_cons in Hin as [[= -> ->]|Hin].
    + rewrite lookup_foldl_insert_notin by done. apply lookup_insert_eq.
    + by apply IH.
Qed.

Lemma update_query_params_run stage kwargs w :
  update_query_params stage kwargs w
  = (Ok tt,
     mkWorld (foldl (fun q kv => <[kv.1 := kv.2]> q)
                (<["stage" := stage]> ∅) kwargs)
       (session_state w) (stitched_mask_png w) (page w)).
Proof. reflexivity. Qed.

(** X1.  [update_query_params] replaces the query parameters: afterwards
    [get_current_stage] returns the stage just written, every keyword
    argument is stored under its key, and no other parameter of the
    previous URL is left.  The session state is not touched. *)
Theorem update_query_params_round_trip stage kwargs w :
  "stage" ∉ kwargs.*1 ->
  NoDup kwargs.*1 ->
  let r := (update_query_params stage kwargs;; get_current_stage) w in
  r.1 = Ok stage
  /\ (forall k v, (k, v) ∈ kwargs -> query_params r.2 !! k = Some v)
  /\ (forall k, k <> "stage" -> k ∉ kwargs.*1 ->
        query_params r.2 !! k = None)
  /\ session_state r.2 = session_state w.
Proof.
  intros Hstage Hnd r. subst r.
  rewrite run_bind, update_query_params_run. unfold get_current_stage.
  simpl. repeat split.
  - by rewrite lookup_foldl_insert_notin, lookup_insert_eq.
  - intros k v Hin. by apply lookup_foldl_insert_in.
  - intros k Hne Hk. rewrite lookup_foldl_insert_notin by done.
    by rewrite lookup_insert_ne.
Qed.

Lemma update_query_params_round_trip_witness :
  let w := mkWorld {["stage" := "upload"; "debug" := "1"]}
             empty_session None [] in
  let r := (update_query_params "check" [("image", "cat.jpg")];;
            get_current_stage) w in
  r.1 = Ok "check"
  /\ query_params r.2 !! "image" = Some "cat.jpg"
  /\ query_params r.2 !! "debug" = None.
Proof.
  intros w.
  destruct (update_query_params_round_trip "check" [("image", "cat.jpg")] w)
    as (Hstage & Hkw & Hold & _).
  - simpl. apply not_elem_of_cons. split; [done | apply not_elem_of_nil].
  - apply NoDup_singleton.
  - split; [exact Hstage |]. split.
    + apply Hkw. by left.
    + apply Hold; [done |]. simpl.
      apply not_elem_of_cons. split; [done | apply not_elem_of_nil].
Defined.

(** ** Stage transitions *)

Lemma moves_to_bind {A B} t (m : M A) (k : A -> M B) :
  moves_to t m -> (forall a, moves_to t (k a)) -> moves_to t (m ≫= k).
Proof.
  intros Hm Hk w. rewrite run_bind. specialize (Hm w).
  destruct (m w) as [[a|e] w']; simpl in *.
  2: { destruct Hm as [Hm|[[= ->] Ht]]; [by left | by right]. }
  destruct Hm as [Hm|[? _]]; [|done].
  rewrite <- Hm. apply Hk.
Qed.

Lemma moves_to_ret {A} t (a : A) : moves_to t (mret a).
Proof. by left. Qed.

Lemma moves_to_raise {A} t e : moves_to t (@raise A e).
Proof. by left. Qed.

Lemma moves_to_lift {A} t (r : result A) : moves_to t (lift r).
Proof. by left. Qed.

Lemma moves_to_assign t upd : moves_to t (assign upd).
Proof. by left. Qed.

Lemma moves_to_query_get t key : moves_to t (query_get key).
Proof. by left. Qed.

Lemma moves_to_get_session t : moves_to t get_session.
Proof. by left. Qed.

Lemma moves_to_render t e : moves_to t (render e).
Proof. by left. Qed.

Lemma moves_to_save_stitched_mask t img : moves_to t (save_stitched_mask img).
Proof. by left. Qed.

Lemma moves_to_attr {A} t name (proj : SessionState -> option A) :
  moves_to t (attr name proj).
Proof. intros w. left. unfold attr. by destruct (proj (session_state w)). Qed.

(** The one place where the query parameters are written: a call of
    [update_query_params] followed by [st.rerun()]. *)
Lemma moves_to_transition stage kwargs :
  "stage" ∉ kwargs.*1 ->
  moves_to (Some stage) (update_query_params stage kwargs;; st_rerun).
Proof.
  intros Hstage w. right. rewrite run_bind, update_query_params_run.
  simpl. split; [done |]. split; [by eexists |].
  by rewrite lookup_foldl_insert_notin, lookup_insert_eq.
Qed.

Create HintDb moves.
#[local] Hint Resolve moves_to_ret moves_to_raise moves_to_lift
  moves_to_assign moves_to_query_get moves_to_get_session moves_to_render
  moves_to_save_stitched_mask moves_to_attr : moves.

Ltac moves_to :=
  repeat first
    [ match goal with
      | |- moves_to _ (update_query_params _ _ ≫= _) =>
          apply moves_to_transition; simpl;
          repeat (apply not_elem_of_cons; split; [done |]);
          apply not_elem_of_nil
      | |- moves_to _ (_ ≫= _) => apply moves_to_bind; [|intros ?]
      | |- moves_to _ (if ?b then _ else _) => destruct b
      | |- moves_to _ (match ?x with _ => _ end) => destruct x
      end
    | progress auto with moves ].

Lemma moves_to_st_image t env path caption :
  moves_to t (st_image env path caption).
Proof. unfold st_image. moves_to. Qed.

Lemma moves_to_generate_result t env a b c d :
  moves_to t (generate_result env a b c d).
Proof. unfold generate_result. moves_to. Qed.

Lemma moves_to_call_stitch t env path ms sel :
  moves_to t (call_stitch_dummy_masks env path ms sel).
Proof. unfold call_stitch_dummy_masks. moves_to. Qed.

#[local] Hint Resolve moves_to_st_image moves_to_generate_result
  moves_to_call_stitch : moves.

Lemma moves_to_init_session_state t : moves_to t init_session_state.
Proof. unfold init_session_state. moves_to. Qed.

Lemma moves_to_restore_state t env current_stage :
  moves_to t (restore_state env current_stage).
Proof. unfold restore_state. moves_to. Qed.

Lemma upload_page_moves env ui :
  moves_to (Some "mask_selection") (upload_page env ui).
Proof. unfold upload_page. moves_to. Qed.

Lemma mask_selection_page_moves env ui :
  moves_to (Some "check") (mask_selection_page env ui).
Proof. unfold mask_selection_page. moves_to. Qed.

Lemma check_page_moves env ui :
  moves_to (Some "result") (check_page env ui).
Proof. unfold check_page. moves_to. Qed.

Lemma result_page_moves env ui :
  moves_to (Some "upload") (result_page env ui).
Proof. unfold result_page. moves_to. Qed.

#[local] Hint Resolve moves_to_init_session_state moves_to_restore_state
  upload_page_moves mask_selection_page_moves check_page_moves
  result_page_moves : moves.

(** The part of [main] after the stage identifier [id] has been read. *)
Lemma dispatch_moves env ui id :
  moves_to (identifier_of_stage ∘ successor <$> stage_of_identifier id)
    (init_session_state;;
     restore_state env id;;
     if String.eqb id "upload" then upload_page env ui
     else if String.eqb id "mask_selection" then mask_selection_page env ui
     else if String.eqb id "check" then check_page env ui
     else if String.eqb id "result" then result_page env ui
     else mret tt).
Proof.
  unfold stage_of_identifier.
  apply moves_to_bind; [apply moves_to_init_session_state | intros _].
  apply moves_to_bind; [apply moves_to_restore_state | intros _].
  destruct (String.eqb id "upload"); [apply upload_page_moves |].
  destruct (String.eqb id "mask_selection");
    [apply mask_selection_page_moves |].
  destruct (String.eqb id "check"); [apply check_page_moves |].
  destruct (String.eqb id "result"); [apply result_page_moves |].
  apply moves_to_ret.
Qed.

Lemma main_moves env ui w :
  let r := main env ui w in
  let target :=
    identifier_of_stage ∘ successor
      <$> stage_of_identifier (current_identifier w) in
  query_params r.2 = query_params w
  \/ (r.1 = Raise RerunException
      /\ is_Some target
      /\ query_params r.2 !! "stage" = target).
Proof.
  intros r target.
  exact (dispatch_moves env ui (current_identifier w)
           (mkWorld (query_params w) (session_state w)
              (stitched_mask_png w) (page w ++ [Title "RapidEdit"]))).
Qed.

(** X2.  The query parameters change in one way only: a run either leaves
    them as they are, or ends by asking for a rerun with [stage] set to the
    successor of the stage it started from (Upload to Mask Selection to
    Check to Result to Upload).  From an unrecognized stage nothing is
    written. *)
Theorem main_transitions_to_successor env ui w :
  let r := main env ui w in
  query_params r.2 = query_params w
  \/ (r.1 = Raise RerunException
      /\ exists st,
           stage_of_identifier (current_identifier w) = Some st
           /\ query_params r.2 !! "stage"
              = Some (identifier_of_stage (successor st))).
Proof.
  intros r.
  destruct (main_moves env ui w) as [Hsame|(Hrerun & Hsome & Hstage)].
  - left. exact Hsame.
  - right. split; [exact Hrerun |].
    destruct (stage_of_identifier (current_identifier w)) as [st|];
      [|by destruct Hsome].
    exists st. split; [done | exact Hstage].
Qed.

Lemma stage_of_identifier_of_stage st :
  stage_of_identifier (identifier_of_stage st) = Some st.
Proof. by destruct st. Qed.

(** X3.  Started from a missing or recognized stage, any sequence of runs,
    whatever the collaborators return and whatever the user enters, leaves
    a recognized stage in the query parameters. *)
Theorem runs_keep_stage_recognized steps w :
  is_Some (stage_of_identifier (current_identifier w)) ->
  is_Some (stage_of_identifier (current_identifier (runs steps w))).
Proof.
  revert w. induction steps as [|[env ui] steps IH]; intros w Hw; [done |].
  simpl. apply IH. unfold current_identifier, next_run. simpl.
  destruct (main_moves env ui w) as [->|(_ & Hsome & ->)]; [done |].
  destruct (stage_of_identifier (current_identifier w)) as [st|];
    [|by destruct Hsome].
  simpl. rewrite stage_of_identifier_of_stage. by eexists.
Qed.

Lemma runs_keep_stage_recognized_witness :
  let masks := [mkMask [[true; false]] 600; mkMask [[false; true]] 700] in
  let w := runs [(env_with masks (1, 2) (Ok tt),
                  mkWidgets (Some "cat.jpg") "a dog" "" [] None None
                    (Some "Create Mask"));
                 (env_with masks (1, 2) (Ok tt),
                  mkWidgets None "" "" ["1"] None None (Some "Proceed"))]
             (mkWorld ∅ empty_session None []) in
  is_Some (stage_of_identifier (current_identifier w))
  /\ current_identifier w = "check".
Proof.
  intros masks w. split; [|reflexivity].
  apply (runs_keep_stage_recognized _ (mkWorld ∅ empty_session None [])).
  by exists Upload.
Defined.

(** ** The Mask Compositor on any selection *)

Lemma int_raises_ValueError s e : Py.int s = Raise e -> e = ValueError.
Proof.
  unfold Py.int. destruct (match Py.strip s with [] => _ | _ => _ end);
    congruence.
Qed.

Lemma entry_int_Some s i :
  entry_int s = Some i ->
  Py.int (Py.strip (list_ascii_of_string s)) = Ok i.
Proof.
  unfold entry_int. destruct (Py.int _); [|done]. by intros [= ->].
Qed.

Lemma entry_int_None s :
  entry_int s = None ->
  Py.int (Py.strip (list_ascii_of_string s)) = Raise ValueError.
Proof.
  unfold entry_int. destruct (Py.int _) as [|e] eqn:Hs; [done |].
  intros _. by rewrite (int_raises_ValueError _ _ Hs).
Qed.

Lemma traverse_entries sel :
  traverse (fun idx =>
              rmap (fun i => i - 1)%Z
                   (Py.int (Py.strip (list_ascii_of_string idx)))) sel
  = if forallb (fun s => is_some (entry_int s)) sel
    then Ok ((fun i => i - 1)%Z <$> omap entry_int sel)
    else Raise ValueError.
Proof.
  induction sel as [|s sel IH]; [done |].
  simpl. destruct (entry_int s) as [i|] eqn:Hs; simpl.
  - rewrite (entry_int_Some _ _ Hs). simpl. rewrite IH.
    by destruct (forallb _ sel).
  - by rewrite (entry_int_None _ Hs).
Qed.

Lemma index_python_position {A} (l : list A) i k :
  python_position (length l) i = Some k ->
  exists x, l !! k = Some x /\ Py.index l (i - 1) = Ok x.
Proof.
  unfold python_position.
  destruct (- Z.of_nat (length l) <? i)%Z eqn:Hlo; [|done].
  destruct (i <=? Z.of_nat (length l))%Z eqn:Hhi; [|done].
  simpl. intros [= <-]. apply Z.ltb_lt in Hlo. apply Z.leb_le in Hhi.
  assert (0 < Z.of_nat (length l))%Z as Hpos by lia.
  assert (Z.to_nat ((i - 1) mod Z.of_nat (length l)) < length l) as Hlt.
  { pose proof (Z.mod_pos_bound (i - 1) _ Hpos). lia. }
  destruct (lookup_lt_is_Some_2 l _ Hlt) as [x Hx].
  exists x. split; [done |]. unfold Py.index.
  destruct (i - 1 <? 0)%Z eqn:Hneg.
  - apply Z.ltb_lt in Hneg.
    replace ((i - 1) mod Z.of_nat (length l))%Z
      with (i - 1 + Z.of_nat (length l))%Z in Hx.
    2: { symmetry. rewrite <- (Z.mod_add _ 1) by lia.
         rewrite Z.mul_1_l. apply Z.mod_small. lia. }
    replace (0 <=? i - 1 + Z.of_nat (length l))%Z with true
      by (symmetry; apply Z.leb_le; lia).
    replace (i - 1 + Z.of_nat (length l) <? Z.of_nat (length l))%Z
      with true by (symmetry; apply Z.ltb_lt; lia).
    simpl. by rewrite Hx.
  - apply Z.ltb_ge in Hneg.
    rewrite Z.mod_small in Hx by lia.
    replace (0 <=? i - 1)%Z with true by (symmetry; apply Z.leb_le; lia).
    replace (i - 1 <? Z.of_nat (length l))%Z
      with true by (symmetry; apply Z.ltb_lt; lia).
    simpl. by rewrite Hx.
Qed.

Lemma index_no_python_position {A} (l : list A) i :
  python_position (length l) i = None ->
  Py.index l (i - 1) = Raise IndexError.
Proof.
  unfold python_position.
  destruct (- Z.of_nat (length l) <? i)%Z eqn:Hlo; simpl.
  - destruct (i <=? Z.of_nat (length l))%Z eqn:Hhi; [done |].
    intros _. apply Z.leb_gt in Hhi. apply index_out_of_range. lia.
  - intros _. apply Z.ltb_ge in Hlo. apply index_out_of_range. lia.
Qed.

(** The loop of the compositor on any integers: it ends with the masks at
    their Python positions OR-ed in, or with [IndexError] at the first
    integer that reaches no mask. *)
Lemma stitch_loop_positions h w masks (ints : list Z)
    (p : nat -> nat -> bool) :
  masks_shaped h w masks = true ->
  for_each (fun combined_mask idx =>
              let* m := Py.index masks idx in
              rmap Np.astype_uint8
                   (Np.logical_or combined_mask (segmentation m)))
           (Np.tabulate h w (fun i j => bit (p i j)))
           ((fun i => i - 1)%Z <$> ints)
  = if forallb (fun i => is_some (python_position (length masks) i)) ints
    then Ok (Np.tabulate h w (fun i j =>
               bit (p i j
                    || existsb (fun m => Np.at2 false m i j)
                         (masks_at masks
                            (omap (python_position (length masks)) ints)))))
    else Raise IndexError.
Proof.
  intros Hshape. revert p. induction ints as [|i ints IH]; intros p.
  - simpl. f_equal. apply tabulate_ext. intros r c _ _.
    by rewrite orb_false_r.
  - simpl.
    destruct (python_position (length masks) i) as [k|] eqn:Hk.
    + destruct (index_python_position _ _ _ Hk) as (m & Hm & ->).
      simpl.
      rewrite (logical_or_same_shape h w _ _
                 (masks_shaped_lookup _ _ _ _ _ Hshape Hm)).
      unfold rmap, Np.astype_uint8. simpl. rewrite fmap_tabulate.
      etrans;
        [exact (IH (fun r c => negb (bit (p r c) =? 0)%Z
                               || Np.at2 false (segmentation m) r c)) |].
      destruct (forallb _ ints); [|done].
      f_equal. apply tabulate_ext. intros r c _ _.
      unfold masks_at. simpl. rewrite Hm. simpl.
      by destruct (p r c), (Np.at2 false (segmentation m) r c).
    + by rewrite (index_no_python_position _ _ Hk).
Qed.

(** The outcome of the compositor on masks over the image's pixel grid,
    for any selection. *)
Lemma stitch_outcome h w masks sel :
  masks_shaped h w masks = true ->
  stitch_dummy_masks h w masks sel
  = if negb (forallb (fun s => is_some (entry_int s)) sel)
    then Raise ValueError
    else if negb (forallb
                    (fun i => is_some (python_position (length masks) i))
                    (omap entry_int sel))
    then Raise IndexError
    else Ok (binary_image
               (pixelwise_or h w
                  (masks_at masks
                     (omap (python_position (length masks))
                        (omap entry_int sel))))).
Proof.
  intros Hshape. unfold stitch_dummy_masks. rewrite traverse_entries.
  destruct (forallb _ sel); [|done]. simpl.
  rewrite zeros_tabulate.
  pose proof (stitch_loop_positions h w masks (omap entry_int sel)
                (fun _ _ => false) Hshape) as Hloop.
  simpl in Hloop. rewrite Hloop.
  destruct (forallb _ (omap entry_int sel)); [|done]. simpl. f_equal.
  unfold Np.mul_uint8, binary_image, pixelwise_or.
  rewrite !fmap_tabulate. apply tabulate_ext. intros i j _ _.
  by destruct (existsb _ _).
Qed.





(** X6.  When all entries are integers between -(N-1) and N, the
    compositor succeeds, also on the entries that are not between 1 and N:
    the entry [i] reads the mask at position [(i - 1) mod N], so that 0
    reads mask N and -1 reads mask N-1.  The image saved has the shape of
    the input image and is 255 exactly where one of the masks read is
    true. *)
Theorem stitch_reads_python_positions h w masks sel :
  masks_shaped h w masks = true ->
  forallb (fun s => is_some (entry_int s)) sel = true ->
  forallb (fun i => (- Z.of_nat (length masks) <? i)%Z
                    && (i <=? Z.of_nat (length masks))%Z)
          (omap entry_int sel) = true ->
  exists img,
    stitch_dummy_masks h w masks sel = Ok img
    /\ Np.has_shape h w img
    /\ Forall (Forall (fun v => v = 0%Z \/ v = 255%Z)) img
    /\ (forall r c, r < h -> c < w ->
          Np.at2 0%Z img r c = 255%Z <->
          exists s i m,
            s ∈ sel /\ entry_int s = Some i
            /\ masks !! Z.to_nat ((i - 1) mod Z.of_nat (length masks))
               = Some m
            /\ Np.at2 false (segmentation m) r c = true).
Proof.
  intros Hshape Hints Hreach. eexists.
  assert (forall i, i ∈ omap entry_int sel ->
            python_position (length masks) i
            = Some (Z.to_nat ((i - 1) mod Z.of_nat (length masks))))
    as Hpos.
  { intros i Hi. rewrite forallb_forall in Hreach.
    apply list_elem_of_In in Hi. specialize (Hreach i Hi).
    unfold python_position. by rewrite Hreach. }
  split.
  { rewrite stitch_outcome by done. rewrite Hints. simpl.
    replace (forallb _ (omap entry_int sel)) with true; [done |].
    symmetry. apply forallb_forall. intros i Hi.
    apply list_elem_of_In in Hi. by rewrite (Hpos i Hi). }
  split; [apply has_shape_binary_image, has_shape_tabulate |].
  split; [apply binary_image_values |].
  intros r c Hr Hc. unfold pixelwise_or.
  rewrite at2_binary_image by done.
  destruct (existsb _ _) eqn:Hex.
  - split; [intros _ | done].
    apply existsb_exists in Hex as (a & Ha & Hpx).
    apply list_elem_of_In, elem_of_masks_at in Ha
      as (k & m & Hk & Hm & <-).
    apply list_elem_of_omap in Hk as (i & Hi & Hk).
    rewrite (Hpos i Hi) in Hk. injection Hk as <-.
    apply list_elem_of_omap in Hi as (s & Hs & Hi).
    by exists s, i, m.
  - split; [done |]. intros (s & i & m & Hs & Hi & Hm & Hpx).
    apply not_true_iff_false in Hex. exfalso. apply Hex.
    apply existsb_exists. exists (segmentation m). split; [|done].
    apply list_elem_of_In, elem_of_masks_at.
    eexists _, m. split; [|done].
    apply list_elem_of_omap. exists i. split.
    + apply list_elem_of_omap. by exists s.
    + apply Hpos. apply list_elem_of_omap. by exists s.
Qed.

Lemma stitch_reads_python_positions_witness :
  exists img,
    stitch_dummy_masks 1 3
      [mkMask [[true; false; false]] 600; mkMask [[false; true; false]] 700;
       mkMask [[false; false; true]] 800] ["-1"; "0"] = Ok img
    /\ img = [[0; 255; 255]]%Z.
Proof.
  destruct (stitch_reads_python_positions 1 3
              [mkMask [[true; false; false]] 600;
               mkMask [[false; true; false]] 700;
               mkMask [[false; false; true]] 800] ["-1"; "0"]
              eq_refl eq_refl eq_refl) as (img & Hrun & _).
  exists img. split; [exact Hrun |].
  assert (Ok img = Ok [[0; 255; 255]]%Z) as Heq
    by (rewrite <- Hrun; reflexivity).
  by injection Heq.
Defined.

(** X7.  A selected mask whose shape does not broadcast against the shape
    of the image (a different number of rows or of columns, neither being
    1) makes the compositor fail with [ValueError]. *)
Theorem stitch_shape_mismatch_raises h w masks s k m :
  valid_index (length masks) s = Some k ->
  masks !! k = Some m ->
  0 < h ->
  Np.broadcast_dim h (Np.shape (segmentation m)).1 = None
  \/ Np.broadcast_dim w (Np.shape (segmentation m)).2 = None ->
  stitch_dummy_masks h w masks [s] = Raise ValueError.
Proof.
  intros Hs Hm Hh Hdims. unfold stitch_dummy_masks. simpl.
  apply valid_index_Some in Hs as [-> _]. simpl.
  replace (Z.of_nat k + 1 - 1)%Z with (Z.of_nat k) by lia.
  rewrite (index_in_range _ _ _ Hm). simpl.
  unfold Np.logical_or. rewrite zeros_tabulate.
  rewrite (shape_has_shape h w _ (has_shape_tabulate h w _)).
  rewrite decide_False by lia.
  destruct (Np.shape (segmentation m)) as [hm wm]. simpl in Hdims.
  destruct Hdims as [-> | ->]; [done |].
  by destruct (Np.broadcast_dim h hm).
Qed.

Lemma stitch_shape_mismatch_raises_witness :
  stitch_dummy_masks 2 2
    [mkMask [[true; false; true]; [false; false; true]] 600] ["1"]
  = Raise ValueError.
Proof.
  apply (stitch_shape_mismatch_raises 2 2
           [mkMask [[true; false; true]; [false; false; true]] 600] "1" 0
           (mkMask [[true; false; true]; [false; false; true]] 600));
    [reflexivity | reflexivity | lia | by right].
Defined.

(** ** From the options of the multiselect to the compositor *)

Lemma lstrip_no_space c l : Py.is_space c = false -> Py.lstrip (c :: l) = c :: l.
Proof. intros Hc. simpl. by rewrite Hc. Qed.

Lemma strip_no_space l :
  Forall (fun c => Py.is_space c = false) l -> Py.strip l = l.
Proof.
  intros Hl. unfold Py.strip.
  assert (forall l', Forall (fun c => Py.is_space c = false) l' ->
                     Py.lstrip l' = l') as Hlstrip.
  { intros [|c l'] Hl'; [done |].
    apply Forall_cons in Hl' as [Hc _]. by apply lstrip_no_space. }
  rewrite (Hlstrip l Hl), Hlstrip, rev_involutive; [done |].
  apply Forall_forall. intros c Hc. rewrite Forall_forall in Hl.
  apply Hl. apply list_elem_of_In. apply list_elem_of_In in Hc.
  by apply in_rev.
Qed.

Lemma digit_not_space c d : Py.digit_of c = Some d -> Py.is_space c = false.
Proof.
  unfold Py.digit_of, Py.is_space.
  destruct (48 <=? nat_of_ascii c)%nat eqn:Hlo; [|done].
  intros _. apply Nat.leb_le in Hlo.
  replace (nat_of_ascii c <=? 13)%nat with false
    by (symmetry; apply Nat.leb_gt; lia).
  replace (nat_of_ascii c <=? 32)%nat with false
    by (symmetry; apply Nat.leb_gt; lia).
  by rewrite !andb_false_r.
Qed.

(** [int] on a string that starts with a digit reads no sign. *)
Lemma int_unsigned c l d :
  Py.digit_of c = Some d ->
  Py.strip (c :: l) = c :: l ->
  Py.int (c :: l)
  = match Py.digits 0 false (c :: l) with
    | Some z => Ok z
    | None => Raise ValueError
    end.
Proof.
  intros Hc Hstrip. unfold Py.int. rewrite Hstrip.
  destruct c as [[] [] [] [] [] [] [] []]; try done.
Qed.

Lemma digits_string_of_uint d acc prev :
  (0 <= acc)%Z ->
  d <> Decimal.Nil \/ prev = true ->
  Py.digits acc prev (list_ascii_of_string (NilEmpty.string_of_uint d))
  = Some (Z.of_nat (Nat.of_uint_acc d (Z.to_nat acc))).
Proof.
  revert acc prev.
  induction d as [|d IH|d IH|d IH|d IH|d IH|d IH|d IH|d IH|d IH|d IH];
    intros acc prev Hacc Hd.
  - destruct Hd as [?| ->]; [done |]. simpl. f_equal. lia.
  - simpl. rewrite IH by (lia || auto). do 3 f_equal.
    rewrite Nat.tail_mul_spec. lia.
  - simpl. rewrite IH by (lia || auto). do 3 f_equal.
    rewrite Nat.tail_mul_spec. lia.
  - simpl. rewrite IH by (lia || auto). do 3 f_equal.
    rewrite Nat.tail_mul_spec. lia.
  - simpl. rewrite IH by (lia || auto). do 3 f_equal.
    rewrite Nat.tail_mul_spec. lia.
  - simpl. rewrite IH by (lia || auto). do 3 f_equal.
    rewrite Nat.tail_mul_spec. lia.
  - simpl. rewrite IH by (lia || auto). do 3 f_equal.
    rewrite Nat.tail_mul_spec. lia.
  - simpl. rewrite IH by (lia || auto). do 3 f_equal.
    rewrite Nat.tail_mul_spec. lia.
  - simpl. rewrite IH by (lia || auto). do 3 f_equal.
    rewrite Nat.tail_mul_spec. lia.
  - simpl. rewrite IH by (lia || auto). do 3 f_equal.
    rewrite Nat.tail_mul_spec. lia.
  - simpl. rewrite IH by (lia || auto). do 3 f_equal.
    rewrite Nat.tail_mul_spec. lia.
Qed.

Lemma string_of_uint_digits d :
  Forall (fun c => is_Some (Py.digit_of c))
    (list_ascii_of_string (NilEmpty.string_of_uint d)).
Proof.
  induction d; simpl; constructor; try done; by eexists.
Qed.

Lemma string_of_uint_NilZero d :
  d <> Decimal.Nil ->
  NilZero.string_of_uint d = NilEmpty.string_of_uint d.
Proof. by destruct d. Qed.

Lemma string_of_uint_head d :
  d <> Decimal.Nil ->
  exists c l x,
    list_ascii_of_string (NilEmpty.string_of_uint d) = c :: l
    /\ Py.digit_of c = Some x.
Proof. destruct d; [done | ..]; intros _; simpl; by eexists _, _, _. Qed.

(** The decimal string of a natural number reads back as that number. *)
Lemma entry_int_str_of_nat n : entry_int (str_of_nat n) = Some (Z.of_nat n).
Proof.
  unfold entry_int, str_of_nat.
  pose proof (DecimalNat.Unsigned.of_to n) as Hn.
  assert (Nat.to_uint n = Decimal.Nil \/ Nat.to_uint n <> Decimal.Nil)
    as [Hnil|Hnil] by (destruct (Nat.to_uint n); auto).
  - rewrite Hnil in *. by subst n.
  - rewrite string_of_uint_NilZero by done.
    destruct (string_of_uint_head _ Hnil) as (c & l & x & Hcl & Hc).
    pose proof (string_of_uint_digits (Nat.to_uint n)) as Hdigits.
    assert (Py.strip (list_ascii_of_string
                        (NilEmpty.string_of_uint (Nat.to_uint n)))
            = list_ascii_of_string
                (NilEmpty.string_of_uint (Nat.to_uint n))) as Hstrip.
    { apply strip_no_space. eapply Forall_impl; [exact Hdigits |].
      intros a [y Hy]. by eapply digit_not_space. }
    rewrite Hstrip. rewrite Hcl in Hstrip |- *.
    rewrite (int_unsigned c l x Hc Hstrip). rewrite <- Hcl.
    rewrite digits_string_of_uint by (lia || auto).
    simpl. do 2 f_equal. exact Hn.
Qed.

(** X8.  The label [f"{id}"] of an option of the multiselect is read back
    by [int(idx.strip())] as the number [id]. *)
Theorem option_label_round_trip n :
  Py.int (Py.strip (list_ascii_of_string (str_of_nat n))) = Ok (Z.of_nat n)
  /\ valid_index n (str_of_nat n) = (if decide (n = 0) then None
                                    else Some (n - 1)).
Proof.
  pose proof (entry_int_Some _ _ (entry_int_str_of_nat n)) as Hn.
  split; [exact Hn |]. unfold valid_index. rewrite Hn.
  case_decide as Hz.
  - subst n. done.
  - replace (1 <=? Z.of_nat n)%Z with true by (symmetry; apply Z.leb_le; lia).
    rewrite Z.leb_refl. simpl. f_equal. lia.
Qed.

Lemma binary_or_pixel h w (ms : list (list (list bool))) r c :
  r < h -> c < w ->
  Np.at2 0%Z (binary_image (pixelwise_or h w ms)) r c = 255%Z
  <-> exists a, a ∈ ms /\ Np.at2 false a r c = true.
Proof.
  intros Hr Hc. unfold pixelwise_or. rewrite at2_binary_image by done.
  destruct (existsb _ ms) eqn:Hex.
  - split; [intros _ | done].
    apply existsb_exists in Hex as (a & Ha & Hpx).
    exists a. by rewrite list_elem_of_In.
  - split; [done |]. intros (a & Ha & Hpx).
    apply not_true_iff_false in Hex. exfalso. apply Hex.
    apply existsb_exists. exists a. by rewrite <- list_elem_of_In.
Qed.

Lemma elem_of_st_multiselect options chosen s :
  s ∈ st_multiselect options chosen <-> s ∈ chosen /\ s ∈ options.
Proof.
  unfold st_multiselect.
  rewrite elem_of_remove_dups, list_elem_of_filter. tauto.
Qed.

Lemma elem_of_option_labels n s :
  s ∈ str_of_nat <$> seq 0 n <-> exists k, k < n /\ s = str_of_nat k.
Proof.
  rewrite list_elem_of_fmap. split.
  - intros (k & -> & Hk). apply elem_of_seq in Hk. exists k. split; [lia | done].
  - intros (k & Hk & ->). exists k. split; [done |].
    apply elem_of_seq. lia.
Qed.

(** X9.  Whatever the user picks in the multiselect of the Mask Selection
    page, the compositor called on the picked options does not raise
    (masks over the pixel grid of the image).  The option labelled [k]
    reads the mask at position [(k - 1) mod N]: the option 0 reads the
    last mask, the one labelled N in the overlay, and the option k, for k
    from 1 to N-1, the mask labelled k. *)
Theorem multiselect_selection_stitches h w masks chosen :
  masks_shaped h w masks = true ->
  exists img,
    stitch_dummy_masks h w masks
      (st_multiselect (str_of_nat <$> seq 0 (length masks)) chosen) = Ok img
    /\ Np.has_shape h w img
    /\ (forall r c, r < h -> c < w ->
          Np.at2 0%Z img r c = 255%Z <->
          exists k m,
            k < length masks /\ str_of_nat k ∈ chosen
            /\ masks !! Z.to_nat ((Z.of_nat k - 1) mod Z.of_nat (length masks))
               = Some m
            /\ Np.at2 false (segmentation m) r c = true).
Proof.
  intros Hshape.
  set (sel := st_multiselect (str_of_nat <$> seq 0 (length masks)) chosen).
  assert (forall s, s ∈ sel ->
            exists k, k < length masks /\ s = str_of_nat k /\ s ∈ chosen
                      /\ entry_int s = Some (Z.of_nat k)) as Hsel.
  { intros s Hs. apply elem_of_st_multiselect in Hs as [Hchosen Hs].
    apply elem_of_option_labels in Hs as (k & Hk & ->).
    exists k. by rewrite entry_int_str_of_nat. }
  assert (forall i, i ∈ omap entry_int sel ->
            exists k, k < length masks /\ i = Z.of_nat k
                      /\ str_of_nat k ∈ chosen) as Hints.
  { intros i (s & Hs & Hi)%list_elem_of_omap.
    destruct (Hsel s Hs) as (k & Hk & -> & Hchosen & Hint).
    exists k. split; [done |]. split; [congruence | done]. }
  assert (forall i, i ∈ omap entry_int sel ->
            python_position (length masks) i
            = Some (Z.to_nat ((i - 1) mod Z.of_nat (length masks))))
    as Hpos.
  { intros i Hi. destruct (Hints i Hi) as (k & Hk & -> & _).
    unfold python_position.
    replace (- Z.of_nat (length masks) <? Z.of_nat k)%Z with true
      by (symmetry; apply Z.ltb_lt; lia).
    replace (Z.of_nat k <=? Z.of_nat (length masks))%Z with true
      by (symmetry; apply Z.leb_le; lia).
    done. }
  eexists. split.
  { rewrite stitch_outcome by done.
    replace (forallb _ sel) with true.
    2: { symmetry. apply forallb_forall. intros s Hs.
         apply list_elem_of_In in Hs.
         destruct (Hsel s Hs) as (k & _ & _ & _ & ->). done. }
    simpl. replace (forallb _ (omap entry_int sel)) with true; [done |].
    symmetry. apply forallb_forall. intros i Hi.
    apply list_elem_of_In in Hi. by rewrite (Hpos i Hi). }
  split; [apply has_shape_binary_image, has_shape_tabulate |].
  intros r c Hr Hc. rewrite binary_or_pixel by done. split.
  - intros (a & Ha & Hpx).
    apply elem_of_masks_at in Ha as (p & m & Hp & Hm & <-).
    apply list_elem_of_omap in Hp as (i & Hi & Hp).
    rewrite (Hpos i Hi) in Hp. injection Hp as <-.
    destruct (Hints i Hi) as (k & Hk & -> & Hchosen).
    by exists k, m.
  - intros (k & m & Hk & Hchosen & Hm & Hpx).
    exists (segmentation m). split; [|done].
    apply elem_of_masks_at. eexists _, m. split; [|done].
    assert (Z.of_nat k ∈ omap entry_int sel) as Hi.
    { apply list_elem_of_omap. exists (str_of_nat k).
      split; [|apply entry_int_str_of_nat].
      apply elem_of_st_multiselect. split; [done |].
      apply elem_of_option_labels. by exists k. }
    apply list_elem_of_omap. exists (Z.of_nat k). split; [done |].
    by apply Hpos.
Qed.

Lemma multiselect_selection_stitches_witness :
  exists img,
    stitch_dummy_masks 1 3
      [mkMask [[true; false; false]] 600; mkMask [[false; true; false]] 700;
       mkMask [[false; false; true]] 800]
      (st_multiselect (str_of_nat <$> seq 0 3) ["0"; "1"; "3"]) = Ok img
    /\ img = [[255; 0; 255]]%Z.
Proof.
  destruct (multiselect_selection_stitches 1 3
              [mkMask [[true; false; false]] 600;
               mkMask [[false; true; false]] 700;
               mkMask [[false; false; true]] 800] ["0"; "1"; "3"] eq_refl)
    as (img & Hrun & _).
  exists img. split; [exact Hrun |].
  assert (Ok img = Ok [[255; 0; 255]]%Z) as Heq
    by (rewrite <- Hrun; reflexivity).
  by injection Heq.
Defined.

(** ** Paths of uploaded files *)

Lemma basename_upload_path name :
  basename (path_join UPLOAD_FOLDER name) = basename name.
Proof.
  unfold path_join. destruct (starts_with_sep name) eqn:Hsep; [done |].
  reflexivity.
Qed.

Lemma after_last_sep_no_sep cur p :
  has_sep p = false -> after_last_sep cur p = cur.
Proof.
  revert cur. induction p as [|c p IH]; intros cur Hp; [done |].
  simpl in *. apply orb_false_iff in Hp as [-> Hp]. by apply IH.
Qed.

Lemma after_last_sep_sep cur p :
  has_sep p = true -> has_sep (after_last_sep cur p) = false.
Proof.
  revert cur. induction p as [|c p IH]; intros cur Hp; [done |].
  simpl in *. destruct (Ascii.eqb c "/"); simpl in Hp.
  - destruct (has_sep p) eqn:Hsep; [by apply IH |].
    by rewrite after_last_sep_no_sep.
  - by apply IH.
Qed.

Lemma basename_no_sep p : has_sep (basename p) = false.
Proof.
  unfold basename. destruct (has_sep p) eqn:Hp.
  - by apply after_last_sep_sep.
  - by rewrite after_last_sep_no_sep.
Qed.

Lemma no_sep_not_absolute p : has_sep p = false -> starts_with_sep p = false.
Proof.
  destruct p as [|c p]; [done |]. simpl. by intros [-> _]%orb_false_iff.
Qed.

(** X10.  The [image] query parameter written by a transition is the
    base name of the active image: it contains no slash, so the path that
    the Mask Selection stage restores from it lies directly in the uploads
    folder; and when the uploaded file name has no slash the restored path
    is the path the upload was saved at. *)
Theorem image_parameter_round_trip name :
  let image := basename (path_join UPLOAD_FOLDER name) in
  has_sep image = false
  /\ path_join UPLOAD_FOLDER image = ("uploads/" ++ image)%string
  /\ (has_sep name = false ->
      path_join UPLOAD_FOLDER image = path_join UPLOAD_FOLDER name).
Proof.
  intros image. subst image. rewrite basename_upload_path.
  pose proof (basename_no_sep name) as Hbase.
  split; [done |]. split.
  - unfold path_join. by rewrite (no_sep_not_absolute _ Hbase).
  - intros Hname. unfold basename. by rewrite after_last_sep_no_sep.
Qed.

Lemma image_parameter_round_trip_witness :
  basename (path_join UPLOAD_FOLDER "cat.jpg") = "cat.jpg"
  /\ path_join UPLOAD_FOLDER (basename (path_join UPLOAD_FOLDER "cat.jpg"))
     = "uploads/cat.jpg".
Proof.
  destruct (image_parameter_round_trip "cat.jpg") as (_ & _ & Hrt).
  split; [reflexivity |]. rewrite (Hrt eq_refl). reflexivity.
Defined.

(** ** The Upload stage *)

Ltac at_stage H :=
  unfold current_identifier in H;
  unfold_script; step;
  match type of H with
  | default _ ?q = _ => destruct q; simpl in H; subst
  end; step.

(** X11.  In the Upload stage, with a file uploaded but nothing entered as
    prompt, the run ends normally whatever button was clicked: the
    segmentation is not called, the session holds no image, masks or
    prompt of this upload, and the stage stays Upload. *)
Theorem upload_needs_prompt env ui w name :
  current_identifier w = "upload" ->
  uploaded_file ui = Some name ->
  enter_prompt ui = "" ->
  save_upload env (path_join UPLOAD_FOLDER name) = Ok tt ->
  show_image env (Some (path_join UPLOAD_FOLDER name)) = Ok tt ->
  let r := main env ui w in
  r.1 = Ok tt
  /\ query_params r.2 = query_params w
  /\ session_state r.2 = set_stage "upload" (init_fields (session_state w)).
Proof.
  intros Hstage Hfile Hprompt Hsave Hshow r. subst r.
  unfold init_fields.
  at_stage Hstage;
    destruct (image_path (session_state w)); step;
    rewrite Hfile; step; rewrite Hsave; step; rewrite Hshow; step;
    rewrite Hprompt, andb_false_r; done.
Qed.

Lemma upload_needs_prompt_witness :
  let w := mkWorld ∅ empty_session None [] in
  let r := main (env_with [] (1, 1) (Ok tt))
             (mkWidgets (Some "cat.jpg") "" "blurry" [] None None
                (Some "Create Mask")) w in
  r.1 = Ok tt
  /\ query_params r.2 = ∅
  /\ masks (session_state r.2) = Some None
  /\ image_path (session_state r.2) = Some None.
Proof.
  intros w.
  destruct (upload_needs_prompt (env_with [] (1, 1) (Ok tt))
              (mkWidgets (Some "cat.jpg") "" "blurry" [] None None
                 (Some "Create Mask")) w "cat.jpg"
              eq_refl eq_refl eq_refl eq_refl eq_refl)
    as (Hrun & Hquery & Hstate).
  split; [exact Hrun |]. split; [exact Hquery |].
  split; rewrite Hstate; reflexivity.
Defined.

(** X12.  In the Upload stage, a click on "Create Mask" with a file and a
    prompt stores the path of the upload, the masks and the overlay path
    returned by [generate_dummy_masks], the prompt and the negative
    prompt, writes [stage=mask_selection] with the base name of the file
    as [image], and asks for a rerun. *)
Theorem upload_creates_masks env ui w name kept overlay :
  current_identifier w = "upload" ->
  uploaded_file ui = Some name ->
  clicked ui = Some "Create Mask" ->
  enter_prompt ui <> "" ->
  save_upload env (path_join UPLOAD_FOLDER name) = Ok tt ->
  show_image env (Some (path_join UPLOAD_FOLDER name)) = Ok tt ->
  generate_dummy_masks env (Some (path_join UPLOAD_FOLDER name))
  = Ok (kept, overlay) ->
  let r := main env ui w in
  r.1 = Raise RerunException
  /\ query_params r.2
     = <["image" := basename (path_join UPLOAD_FOLDER name)]>
         (<["stage" := "mask_selection"]> ∅)
  /\ session_state r.2
     = set_negative_prompt (enter_negative_prompt ui)
         (set_prompt (Some (enter_prompt ui))
            (set_masks (Some kept)
               (set_mask_overlay_path (Some overlay)
                  (set_image_path (Some (path_join UPLOAD_FOLDER name))
                     (set_stage "upload"
                        (init_fields (session_state w))))))).
Proof.
  intros Hstage Hfile Hclick Hprompt Hsave Hshow Hgen r. subst r.
  apply String.eqb_neq in Hprompt. unfold init_fields.
  at_stage Hstage;
    destruct (image_path (session_state w)); step;
    rewrite Hfile; step; rewrite Hsave; step; rewrite Hshow; step;
    rewrite Hclick, (bool_decide_eq_true_2 _ eq_refl), Hprompt; step;
    rewrite Hgen; step; done.
Qed.

Lemma upload_creates_masks_witness :
  let w := mkWorld ∅ empty_session None [] in
  let r := main (env_with [mkMask [[true]] 501; mkMask [[false]] 12]
                   (1, 1) (Ok tt))
             (mkWidgets (Some "cat.jpg") "a dog" "blurry" [] None None
                (Some "Create Mask")) w in
  r.1 = Raise RerunException
  /\ query_params r.2 !! "stage" = Some "mask_selection"
  /\ query_params r.2 !! "image" = Some "cat.jpg"
  /\ masks (session_state r.2) = Some (Some [mkMask [[true]] 501])
  /\ image_path (session_state r.2) = Some (Some "uploads/cat.jpg").
Proof.
  intros w.
  destruct (upload_creates_masks
              (env_with [mkMask [[true]] 501; mkMask [[false]] 12]
                 (1, 1) (Ok tt))
              (mkWidgets (Some "cat.jpg") "a dog" "blurry" [] None None
                 (Some "Create Mask")) w "cat.jpg"
              [mkMask [[true]] 501] "uploads/mask_overlay.png"
              eq_refl eq_refl eq_refl)
    as (Hrun & Hquery & Hstate); [done | reflexivity.. |].
  split; [exact Hrun |].
  split; [rewrite Hquery; reflexivity |].
  split; [rewrite Hquery; reflexivity |].
  split; rewrite Hstate; reflexivity.
Defined.

(** X13.  In the Upload stage, when [generate_dummy_masks] raises after a
    click on "Create Mask", the run ends with that exception and nothing
    of the upload has been stored: the session state is the one the run
    started with (initialised, stage Upload) and the query parameters are
    unchanged. *)
Theorem upload_failure_stores_nothing env ui w name e :
  current_identifier w = "upload" ->
  uploaded_file ui = Some name ->
  clicked ui = Some "Create Mask" ->
  enter_prompt ui <> "" ->
  save_upload env (path_join UPLOAD_FOLDER name) = Ok tt ->
  show_image env (Some (path_join UPLOAD_FOLDER name)) = Ok tt ->
  generate_dummy_masks env (Some (path_join UPLOAD_FOLDER name)) = Raise e ->
  let r := main env ui w in
  r.1 = Raise e
  /\ query_params r.2 = query_params w
  /\ session_state r.2 = set_stage "upload" (init_fields (session_state w)).
Proof.
  intros Hstage Hfile Hclick Hprompt Hsave Hshow Hgen r. subst r.
  apply String.eqb_neq in Hprompt. unfold init_fields.
  at_stage Hstage;
    destruct (image_path (session_state w)); step;
    rewrite Hfile; step; rewrite Hsave; step; rewrite Hshow; step;
    rewrite Hclick, (bool_decide_eq_true_2 _ eq_refl), Hprompt; step;
    rewrite Hgen; step; done.
Qed.

Lemma upload_failure_stores_nothing_witness :
  let env := mkEnv (fun _ => Raise (CollaboratorError "no checkpoint"))
               (fun _ _ => Ok tt) (fun _ => Ok (1, 1))
               (fun _ _ _ _ => Ok tt) (fun _ => Ok tt) (fun _ => Ok tt)
               (fun _ => Ok tt) in
  let w := mkWorld ∅ empty_session None [] in
  let r := main env
             (mkWidgets (Some "cat.jpg") "a dog" "" [] None None
                (Some "Create Mask")) w in
  r.1 = Raise (CollaboratorError "no checkpoint")
  /\ query_params r.2 = ∅
  /\ prompt (session_state r.2) = Some None
  /\ masks (session_state r.2) = Some None.
Proof.
  intros env w.
  destruct (upload_failure_stores_nothing env
              (mkWidgets (Some "cat.jpg") "a dog" "" [] None None
                 (Some "Create Mask")) w "cat.jpg"
              (CollaboratorError "no checkpoint") eq_refl eq_refl eq_refl)
    as (Hrun & Hquery & Hstate); [done | reflexivity.. |].
  split; [exact Hrun |]. split; [exact Hquery |].
  split; rewrite Hstate; reflexivity.
Defined.

(** ** Restoring the Mask Selection stage *)

(** X14.  On entry to Mask Selection with a non-empty [image] parameter,
    the image path of the session becomes the path of that file in the
    uploads folder and the session stage becomes Mask Selection.  The masks
    are generated again exactly when the overlay path of the session is
    [None]: then the masks and the overlay path returned are stored, or, if
    the generation raises, the exception ends the restoring with the image
    path and the stage already written.  With an overlay path in the
    session the segmentation is not called. *)
Theorem restore_regenerates_masks_lazily env w c name overlay :
  query_params w !! "image" = Some (String c name) ->
  mask_overlay_path (session_state w) = Some overlay ->
  let path := path_join UPLOAD_FOLDER (String c name) in
  let entered :=
    set_stage "mask_selection"
      (set_image_path (Some path) (session_state w)) in
  restore_state env "mask_selection" w
  = match overlay with
    | Some _ =>
        (Ok tt, mkWorld (query_params w) entered
                  (stitched_mask_png w) (page w))
    | None =>
        match generate_dummy_masks env (Some path) with
        | Ok r =>
            (Ok tt, mkWorld (query_params w)
                      (set_mask_overlay_path (Some r.2)
                         (set_masks (Some r.1) entered))
                      (stitched_mask_png w) (page w))
        | Raise e =>
            (Raise e, mkWorld (query_params w) entered
                        (stitched_mask_png w) (page w))
        end
    end.
Proof.
  intros Himage Hoverlay path entered. subst path entered.
  unfold_script. step. rewrite Himage. step. rewrite Hoverlay. step.
  destruct overlay as [o|]; step; [done |].
  by destruct (generate_dummy_masks env _) as [[kept o]|e].
Qed.

Lemma restore_regenerates_masks_lazily_witness :
  let w := mkWorld {["stage" := "mask_selection"; "image" := "photo.png"]}
             (init_fields empty_session) None [] in
  let r := restore_state
             (env_with [mkMask [[true]] 501; mkMask [[false]] 12]
                (1, 1) (Ok tt))
             "mask_selection" w in
  r.1 = Ok tt
  /\ image_path (session_state r.2) = Some (Some "uploads/photo.png")
  /\ masks (session_state r.2) = Some (Some [mkMask [[true]] 501])
  /\ mask_overlay_path (session_state r.2)
     = Some (Some "uploads/mask_overlay.png").
Proof.
  intros w.
  rewrite (restore_regenerates_masks_lazily
             (env_with [mkMask [[true]] 501; mkMask [[false]] 12]
                (1, 1) (Ok tt))
             w "p" "hoto.png" None eq_refl eq_refl).
  repeat split.
Defined.

(** X15.  Restoring is idempotent: once the Mask Selection stage has been
    restored without an exception, restoring it again on a reload,
    whatever the collaborators would return, changes nothing and does not
    call the segmentation. *)
Theorem restore_mask_selection_idempotent env env' w w' c name :
  query_params w !! "image" = Some (String c name) ->
  restore_state env "mask_selection" w = (Ok tt, w') ->
  restore_state env' "mask_selection" w' = (Ok tt, w').
Proof.
  intros Himage Hrestore.
  destruct (mask_overlay_path (session_state w)) as [overlay|] eqn:Hoverlay.
  - rewrite (restore_regenerates_masks_lazily env w c name overlay)
      in Hrestore by done.
    destruct overlay as [o|].
    + injection Hrestore as <-.
      rewrite (restore_regenerates_masks_lazily env' _ c name (Some o))
        by done.
      reflexivity.
    + destruct (generate_dummy_masks env _) as [[kept o]|e]; [|done].
      injection Hrestore as <-.
      rewrite (restore_regenerates_masks_lazily env' _ c name (Some o))
        by done.
      reflexivity.
  - exfalso. revert Hrestore. unfold_script. step.
    rewrite Himage. step. by rewrite Hoverlay.
Qed.

Lemma restore_mask_selection_idempotent_witness :
  let w := mkWorld {["stage" := "mask_selection"; "image" := "photo.png"]}
             (init_fields empty_session) None [] in
  let env := env_with [mkMask [[true]] 501] (1, 1) (Ok tt) in
  let env' := mkEnv (fun _ => Raise (CollaboratorError "no checkpoint"))
                (fun _ _ => Ok tt) (fun _ => Ok (1, 1))
                (fun _ _ _ _ => Ok tt) (fun _ => Ok tt) (fun _ => Ok tt)
                (fun _ => Ok tt) in
  restore_state env' "mask_selection"
    (restore_state env "mask_selection" w).2
  = (Ok tt, (restore_state env "mask_selection" w).2).
Proof.
  intros w env env'.
  apply (restore_mask_selection_idempotent env env' w _ "p" "hoto.png");
    vm_compute; reflexivity.
Defined.

(** ** The Mask Selection stage *)

(** The compositor succeeds on what the multiselect returns. *)
Lemma multiselect_stitch_ok h w masks chosen :
  masks_shaped h w masks = true ->
  exists img,
    stitch_dummy_masks h w masks
      (st_multiselect (str_of_nat <$> seq 0 (length masks)) chosen) = Ok img.
Proof.
  intros Hshape. eexists. rewrite stitch_outcome by done.
  set (sel := st_multiselect (str_of_nat <$> seq 0 (length masks)) chosen).
  assert (forall s, s ∈ sel ->
            exists k, k < length masks /\ entry_int s = Some (Z.of_nat k))
    as Hsel.
  { intros s Hs. apply elem_of_st_multiselect in Hs as [_ Hs].
    apply elem_of_option_labels in Hs as (k & Hk & ->).
    exists k. by rewrite entry_int_str_of_nat. }
  replace (forallb _ sel) with true.
  2: { symmetry. apply forallb_forall. intros s Hs.
       apply list_elem_of_In in Hs. by destruct (Hsel s Hs) as (k & _ & ->). }
  simpl. replace (forallb _ (omap entry_int sel)) with true; [done |].
  symmetry. apply forallb_forall. intros i Hi.
  apply list_elem_of_In, list_elem_of_omap in Hi as (s & Hs & Hi).
  destruct (Hsel s Hs) as (k & Hk & Hint).
  assert (i = Z.of_nat k) as -> by congruence.
  unfold python_position.
  replace (- Z.of_nat (length masks) <? Z.of_nat k)%Z with true
    by (symmetry; apply Z.ltb_lt; lia).
  by replace (Z.of_nat k <=? Z.of_nat (length masks))%Z with true
    by (symmetry; apply Z.leb_le; lia).
Qed.

(** X16.  In the Mask Selection stage, with masks over the pixel grid of
    the image, a click on "Proceed" always reaches Check, whatever was
    picked (nothing included): the stitched mask is saved, its path and
    the picked options are stored in the session, [stage=check] is written
    with the base name of the image, and a rerun is asked for. *)
Theorem proceed_reaches_check env ui w c name ip o ms h wd :
  query_params w !! "stage" = Some "mask_selection" ->
  query_params w !! "image" = Some (String c name) ->
  clicked ui = Some "Proceed" ->
  image_path (session_state w) = Some ip ->
  mask_overlay_path (session_state w) = Some (Some o) ->
  masks (session_state w) = Some (Some ms) ->
  show_image env (Some o) = Ok tt ->
  image_shape env (Some (path_join UPLOAD_FOLDER (String c name)))
  = Ok (h, wd) ->
  masks_shaped h wd ms = true ->
  let selected :=
    st_multiselect (str_of_nat <$> seq 0 (length ms)) (chosen_masks ui) in
  let r := main env ui w in
  r.1 = Raise RerunException
  /\ query_params r.2
     = <["image" := basename (path_join UPLOAD_FOLDER (String c name))]>
         (<["stage" := "check"]> ∅)
  /\ session_state r.2
     = set_selected_masks selected
         (set_stitched_mask_path
            (Some (path_join UPLOAD_FOLDER "stitched_mask.png"))
            (set_stage "mask_selection"
               (set_image_path
                  (Some (path_join UPLOAD_FOLDER (String c name)))
                  (session_state w))))
  /\ Ok <$> stitched_mask_png r.2
     = Some (stitch_dummy_masks h wd ms selected).
Proof.
  intros Hstage Himage Hclick Hip Hoverlay Hms Hshow Hshape Hshaped
    selected r.
  destruct (multiselect_stitch_ok h wd ms (chosen_masks ui) Hshaped)
    as [img Himg].
  subst r selected. unfold_script. step. rewrite Hstage, Hip. step.
  rewrite Himage. step. rewrite Hoverlay. step. rewrite Hoverlay. step.
  rewrite Hshow. step. rewrite Hms. step.
  rewrite Hclick, (bool_decide_eq_true_2 _ eq_refl). step.
  rewrite Hshape. step. rewrite Himg. step. done.
Qed.

Lemma proceed_reaches_check_witness :
  let ms := [mkMask [[true; false]] 600; mkMask [[false; true]] 700] in
  let w := mkWorld {["stage" := "mask_selection"; "image" := "cat.jpg"]}
             (mkSession (Some (Some "uploads/cat.jpg")) (Some (Some "a dog"))
                (Some (Some "uploads/mask_overlay.png")) (Some (Some ms))
                (Some None) (Some []) (Some None) (Some "upload")
                (Some "") None)
             None [] in
  let r := main (env_with ms (1, 2) (Ok tt))
             (mkWidgets None "" "" ["1"] None None (Some "Proceed")) w in
  r.1 = Raise RerunException
  /\ query_params r.2 !! "stage" = Some "check"
  /\ selected_masks (session_state r.2) = Some ["1"]
  /\ stitched_mask_png r.2 = Some [[255; 0]]%Z.
Proof.
  intros ms w.
  destruct (proceed_reaches_check (env_with ms (1, 2) (Ok tt))
              (mkWidgets None "" "" ["1"] None None (Some "Proceed")) w
              "c" "at.jpg" (Some "uploads/cat.jpg")
              "uploads/mask_overlay.png" ms 1 2
              eq_refl eq_refl eq_refl eq_refl eq_refl eq_refl eq_refl
              eq_refl eq_refl)
    as (Hrun & Hquery & Hstate & Hpng).
  split; [exact Hrun |].
  split; [rewrite Hquery; reflexivity |].
  split; [rewrite Hstate; vm_compute; reflexivity |].
  destruct (stitched_mask_png _) as [img|]; [|discriminate Hpng].
  vm_compute in Hpng. by injection Hpng as ->.
Defined.

(** X17.  In the Mask Selection stage, when the image cannot be decoded
    or the compositor raises after a click on "Proceed", the run ends with
    that exception and the stage is not advanced: the query parameters are
    unchanged, and the stitched-mask path, the selected masks and the
    saved stitched mask are the ones from before. *)
Theorem proceed_failure_stays env ui w c name ip o ms e :
  query_params w !! "stage" = Some "mask_selection" ->
  query_params w !! "image" = Some (String c name) ->
  clicked ui = Some "Proceed" ->
  image_path (session_state w) = Some ip ->
  mask_overlay_path (session_state w) = Some (Some o) ->
  masks (session_state w) = Some (Some ms) ->
  show_image env (Some o) = Ok tt ->
  (let* shape :=
     image_shape env (Some (path_join UPLOAD_FOLDER (String c name))) in
   stitch_dummy_masks shape.1 shape.2 ms
     (st_multiselect (str_of_nat <$> seq 0 (length ms)) (chosen_masks ui)))
  = Raise e ->
  let r := main env ui w in
  r.1 = Raise e
  /\ query_params r.2 = query_params w
  /\ session_state r.2
     = set_stage "mask_selection"
         (set_image_path (Some (path_join UPLOAD_FOLDER (String c name)))
            (session_state w))
  /\ stitched_mask_png r.2 = stitched_mask_png w.
Proof.
  intros Hstage Himage Hclick Hip Hoverlay Hms Hshow Hfail r. subst r.
  unfold_script. step. rewrite Hstage, Hip. step.
  rewrite Himage. step. rewrite Hoverlay. step. rewrite Hoverlay. step.
  rewrite Hshow. step. rewrite Hms. step.
  rewrite Hclick, (bool_decide_eq_true_2 _ eq_refl). step.
  destruct (image_shape env _) as [[h wd]|e'].
  - simpl in Hfail. step. rewrite Hfail. step. done.
  - simpl in Hfail. injection Hfail as ->. step. done.
Qed.

Lemma proceed_failure_stays_witness :
  let ms := [mkMask [[true; false; true]] 600] in
  let w := mkWorld {["stage" := "mask_selection"; "image" := "cat.jpg"]}
             (mkSession (Some (Some "uploads/cat.jpg")) (Some (Some "a dog"))
                (Some (Some "uploads/mask_overlay.png")) (Some (Some ms))
                (Some None) (Some []) (Some None) (Some "upload")
                (Some "") None)
             None [] in
  let r := main (env_with ms (2, 2) (Ok tt))
             (mkWidgets None "" "" ["0"] None None (Some "Proceed")) w in
  r.1 = Raise ValueError
  /\ query_params r.2 !! "stage" = Some "mask_selection"
  /\ stitched_mask_path (session_state r.2) = Some None.
Proof.
  intros ms w.
  destruct (proceed_failure_stays (env_with ms (2, 2) (Ok tt))
              (mkWidgets None "" "" ["0"] None None (Some "Proceed")) w
              "c" "at.jpg" (Some "uploads/cat.jpg")
              "uploads/mask_overlay.png" ms ValueError
              eq_refl eq_refl eq_refl eq_refl eq_refl eq_refl eq_refl
              eq_refl)
    as (Hrun & Hquery & Hstate & _).
  split; [exact Hrun |].
  split; [rewrite Hquery; reflexivity |].
  rewrite Hstate. reflexivity.
Defined.

(** ** The Check and Result stages *)










